(** * Pitch-speed extraction and aggregation

    A shallow embedding of the extraction, aggregation and reporting
    routines of the pitch-speed scripts, together with the properties
    the written specification states about them.

    Modelling conventions.
    - A decoded game record is a [json] value, the tree [json.loads]
      returns.  A Python [dict] decoded from JSON is an association list
      in insertion order; its keys are distinct.
    - Python [float]s are modelled as exact rationals ([Qc]); NaN and
      the infinities are outside the model.  [float] of an [int]
      rounds to binary64 and raises OverflowError as Python does.
      Where rounding decides a property, the arithmetic of the loops
      is repeated on binary64 floats in [Binary64].
    - A raised exception is a value of the monad [py].  Every routine
      that wraps its body in [try ... except Exception] is total here.
    - Dictionaries built by the scripts and keyed by pitcher name are
      [gmap]s keyed by [pykey], the hashable Python values up to [==].
      The order of such a dictionary is never observed, except by the
      final sort, whose input order comes from a [set]. *)

From Stdlib Require Import QArith Qcanon ZArith DecimalString Floats Uint63.
From stdpp Require Import base numbers option list gmap strings sorting.

Local Open Scope string_scope.
Local Open Scope list_scope.
Local Open Scope Qc_scope.

(** ** Decoded JSON *)

Unset Elimination Schemes.
Inductive json :=
| JNull
| JBool (b : bool)
| JInt (n : Z)
| JFloat (q : Qc)
| JStr (s : string)
| JArr (items : list json)
| JObj (fields : list (string * json)).
Set Elimination Schemes.

(** ** Exceptions *)

Inductive exn := AttributeError | TypeError | ValueError | KeyError | OverflowError.

Inductive py (A : Type) :=
| Ok (a : A)
| Raise (e : exn).
Arguments Ok {A} a.
Arguments Raise {A} e.

Global Instance py_ret : MRet py := @Ok.
Global Instance py_bind : MBind py := λ A B f m,
  match m with
  | Ok a => f a
  | Raise e => Raise e
  end.

(** [for x in xs: st = body(st, x)], stopping at the first exception. *)
Fixpoint for_each {A S : Type} (body : S → A → py S) (st : S) (xs : list A) : py S :=
  match xs with
  | [] => Ok st
  | x :: xs' => st' ← body st x; for_each body st' xs'
  end.

(** ** Hashable values: dictionary and set keys

    Python compares and hashes [True], [1] and [1.0] alike, so booleans
    and numbers share one constructor. *)

Inductive pykey :=
| KNone
| KNum (q : Qc)
| KStr (s : string).

Global Instance pykey_eq_dec : EqDecision pykey.
Proof. solve_decision. Defined.

Definition pykey_to_sum (k : pykey) : unit + (Qc + string) :=
  match k with
  | KNone => inl ()
  | KNum q => inr (inl q)
  | KStr s => inr (inr s)
  end.

Definition pykey_of_sum (x : unit + (Qc + string)) : pykey :=
  match x with
  | inl _ => KNone
  | inr (inl q) => KNum q
  | inr (inr s) => KStr s
  end.

Lemma pykey_sum_inv k : pykey_of_sum (pykey_to_sum k) = k.
Proof. by destruct k. Qed.

Global Instance pykey_countable : Countable pykey :=
  inj_countable' pykey_to_sum pykey_of_sum pykey_sum_inv.

(** [hash(v)]: lists and dicts are unhashable. *)
Definition to_key (v : json) : py pykey :=
  match v with
  | JNull => Ok KNone
  | JBool b => Ok (KNum (if b then 1 else 0))
  | JInt n => Ok (KNum (Qc_of_Z n))
  | JFloat q => Ok (KNum q)
  | JStr s => Ok (KStr s)
  | JArr _ | JObj _ => Raise TypeError
  end.

(** ** Python operations on decoded JSON *)

Fixpoint dict_lookup (key : string) (fields : list (string * json)) : option json :=
  match fields with
  | [] => None
  | (k, v) :: rest => if decide (k = key) then Some v else dict_lookup key rest
  end.

Fixpoint is_substring (needle hay : string) : bool :=
  String.prefix needle hay ||
  match hay with
  | EmptyString => false
  | String _ hay' => is_substring needle hay'
  end.

(** [bool(v)] *)
Definition py_truthy (v : json) : bool :=
  match v with
  | JNull => false
  | JBool b => b
  | JInt n => bool_decide (n ≠ 0%Z)
  | JFloat q => bool_decide (q ≠ 0)
  | JStr s => bool_decide (s ≠ "")
  | JArr items => bool_decide (items ≠ [])
  | JObj fields => bool_decide (fields ≠ [])
  end.

(** [v is None] *)
Definition is_None (v : json) : bool :=
  match v with
  | JNull => true
  | _ => false
  end.

(** [v.get(key, default)]: only a dict has the method. *)
Definition py_get (v : json) (key : string) (dflt : json) : py json :=
  match v with
  | JObj fields => Ok (default dflt (dict_lookup key fields))
  | _ => Raise AttributeError
  end.

(** [v.items()] *)
Definition py_items (v : json) : py (list (string * json)) :=
  match v with
  | JObj fields => Ok fields
  | _ => Raise AttributeError
  end.

(** [key in v] for a string [key]: key membership in a dict, element
    membership in a list, substring test in a string. *)
Definition py_in (key : string) (v : json) : py bool :=
  match v with
  | JObj fields => Ok (bool_decide (is_Some (dict_lookup key fields)))
  | JArr items => Ok (existsb (λ x, match x with JStr s => bool_decide (s = key) | _ => false end) items)
  | JStr s => Ok (is_substring key s)
  | JNull | JBool _ | JInt _ | JFloat _ => Raise TypeError
  end.

(** [v[key]] for a string [key] *)
Definition py_index (v : json) (key : string) : py json :=
  match v with
  | JObj fields =>
      match dict_lookup key fields with
      | Some x => Ok x
      | None => Raise KeyError
      end
  | _ => Raise TypeError
  end.

(** [for x in v]: the elements of a list, the keys of a dict, the
    characters of a string. *)
Definition py_iter (v : json) : py (list json) :=
  match v with
  | JArr items => Ok items
  | JObj fields => Ok (map (λ kv, JStr kv.1) fields)
  | JStr s => Ok (map (λ c, JStr (String c EmptyString)) (String.list_ascii_of_string s))
  | JNull | JBool _ | JInt _ | JFloat _ => Raise TypeError
  end.

(** ** Dictionaries keyed by pitcher *)

(** [d[k]] on a [defaultdict]: a missing key is inserted with the
    default before it is returned. *)
Definition defaultdict_get {V : Type} (dflt : V) (k : pykey) (d : gmap pykey V)
  : V * gmap pykey V :=
  match d !! k with
  | Some v => (v, d)
  | None => (dflt, <[k := dflt]> d)
  end.

(** [for k, v in d.items(): acc = body(acc, k, v)] *)
Definition for_items {V A : Type} (d : gmap pykey V) (body : A → pykey → V → A) (init : A) : A :=
  foldl (λ acc kv, body acc kv.1 kv.2) init (map_to_list d).

(** [if speed > d[name]: d[name] = speed] on a [defaultdict(float)] *)
Definition update_max (name : pykey) (speed : Qc) (d : gmap pykey Qc) : gmap pykey Qc :=
  let '(current, d') := defaultdict_get 0 name d in
  if decide (current < speed) then <[name := speed]> d' else d'.

(** [d[name].append(x)] on a [defaultdict(list)] *)
Definition append_to (name : pykey) (x : Qc) (d : gmap pykey (list Qc)) : gmap pykey (list Qc) :=
  let '(l, d') := defaultdict_get [] name d in
  <[name := l ++ [x]]> d'.

(** [sum(l)] *)
Definition py_sum (l : list Qc) : Qc := foldl Qcplus 0 l.

(** [sum(l) / len(l)] *)
Definition mean (l : list Qc) : Qc := py_sum l / Qc_of_Z (Z.of_nat (length l)).

(** [out = {}; for name, l in d.items(): if l: out[name] = sum(l) / len(l)] *)
Definition averages (d : gmap pykey (list Qc)) : gmap pykey Qc :=
  for_items d (λ out name l, if bool_decide (l ≠ []) then <[name := mean l]> out else out) ∅.

(** [FASTBALL_CODES = {"FF", "FT", "SI", "FC"}] *)
Definition FASTBALL_CODES : gset pykey :=
  {[ KStr "FF"; KStr "FT"; KStr "SI"; KStr "FC" ]}.

(** ** What a script is given for one game

    [open], [read] and [json.loads] are library calls; a game file is
    modelled by what they deliver. *)

Inductive game_file :=
| Missing                      (* [open] raises FileNotFoundError *)
| Unreadable                   (* [open] or [read] raises another error *)
| NotJson                      (* [json.loads] raises JSONDecodeError *)
| Decoded (game_data : json).

(** The lines an extractor prints. *)
Inductive message :=
| WarnNotJson                  (* the whole file is not valid JSON *)
| WarnNoAllPlays               (* Warning: Could not find 'allPlays' *)
| WarnFileNotFound
| WarnUnexpected.

(** The two dictionaries of the combined extractor's loop. *)
Record speeds := Speeds {
  max_speeds : gmap pykey Qc;
  fastball_speeds_dict : gmap pykey (list Qc)
}.

(** [float(n)] for an [int]: the nearest binary64 value, ties to the
    even significand, which is an integer again when [n] has more than
    53 bits; [None] when it is beyond the largest finite binary64
    value, where Python raises OverflowError. *)
Definition float_of_int (n : Z) : option Z :=
  let a := Z.abs n in
  let excess := (Z.log2 a + 1 - 53)%Z in
  if (excess <=? 0)%Z then Some n
  else
    let q := Z.shiftr a excess in
    let r := Z.land a (Z.ones excess) in
    let half := Z.shiftl 1 (excess - 1) in
    let q' := if (half <? r)%Z || ((r =? half)%Z && Z.odd q) then (q + 1)%Z else q in
    let m := Z.shiftl q' excess in
    if (Z.shiftl 1 1024 <=? m)%Z then None else Some (Z.sgn n * m)%Z.

Section Extractor.

(** [repr] of a float, a list or a dict, and [float] of a string, are
    left to the Python library. *)
Variable py_repr : json → string.
Variable float_of_str : string → option Qc.

(** [str(v)] *)
Definition py_str (v : json) : string :=
  match v with
  | JNull => "None"
  | JBool true => "True"
  | JBool false => "False"
  | JInt n => NilZero.string_of_int (Z.to_int n)
  | JStr s => s
  | JFloat _ | JArr _ | JObj _ => py_repr v
  end.

(** [float(v)]: an [int] is rounded to binary64 or raises
    OverflowError, a decoded float is returned as it is. *)
Definition py_float (v : json) : py Qc :=
  match v with
  | JBool b => Ok (if b then 1 else 0)
  | JInt n =>
      match float_of_int n with
      | Some z => Ok (Qc_of_Z z)
      | None => Raise OverflowError
      end
  | JFloat q => Ok q
  | JStr s =>
      match float_of_str s with
      | Some q => Ok q
      | None => Raise ValueError
      end
  | JNull | JArr _ | JObj _ => Raise TypeError
  end.

(** The roster: [player_names[person.id] = person.fullName] for every
    entry of [liveData.players] in which both are truthy. *)
Definition add_player (player_names : gmap pykey json) (entry : string * json)
  : py (gmap pykey json) :=
  let pdata := entry.2 in
  person_info ← py_get pdata "person" (JObj []);
  player_id ← py_get person_info "id" JNull;
  player_full_name ← py_get person_info "fullName" JNull;
  if py_truthy player_id && py_truthy player_full_name then
    k ← to_key player_id;
    Ok (<[k := player_full_name]> player_names)
  else Ok player_names.

Definition build_player_names (players_data_raw : json) : py (gmap pykey json) :=
  if py_truthy players_data_raw then
    entries ← py_items players_data_raw;
    for_each add_player ∅ entries
  else Ok ∅.

(** [pitcher_info.get('fullName', 'Unknown_Pitcher_Id_' + str(pitcher_id))] *)
Definition matchup_name (pitcher_info pitcher_id : json) : py json :=
  py_get pitcher_info "fullName" (JStr ("Unknown_Pitcher_Id_" +:+ py_str pitcher_id)).

(** [player_names[pitcher_id] if pitcher_id and pitcher_id in player_names
     else pitcher_name_from_matchup] *)
Definition final_pitcher_name (player_names : gmap pykey json)
    (pitcher_id pitcher_name_from_matchup : json) : py json :=
  if py_truthy pitcher_id then
    k ← to_key pitcher_id;
    match player_names !! k with
    | Some full_name => Ok full_name
    | None => Ok pitcher_name_from_matchup
    end
  else Ok pitcher_name_from_matchup.

(** [pitch_data and 'startSpeed' in pitch_data] *)
Definition has_start_speed (pitch_data : json) : py bool :=
  if py_truthy pitch_data then py_in "startSpeed" pitch_data else Ok false.

(** [pitch_data and 'startSpeed' in pitch_data and details and 'type' in details] *)
Definition has_speed_and_type (pitch_data details : json) : py bool :=
  b ← has_start_speed pitch_data;
  if (b : bool) then
    if py_truthy details then py_in "type" details else Ok false
  else Ok false.

(** [pitch_code in FASTBALL_CODES] *)
Definition is_fastball (pitch_code : json) : py bool :=
  k ← to_key pitch_code;
  Ok (bool_decide (k ∈ FASTBALL_CODES)).

(** *** The combined extractor: body of the loop over [playEvents] *)
Definition process_event (player_names : gmap pykey json)
    (pitcher_id pitcher_name_from_matchup : json) (st : speeds) (event : json) : py speeds :=
  pitch_data ← py_get event "pitchData" JNull;
  details ← py_get event "details" JNull;
  qualifies ← has_speed_and_type pitch_data details;
  if (qualifies : bool) then
    start_speed ← py_index pitch_data "startSpeed";
    speed ← py_float start_speed;
    type ← py_index details "type";
    pitch_code ← py_get type "code" JNull;
    final_name ← final_pitcher_name player_names pitcher_id pitcher_name_from_matchup;
    name ← to_key final_name;
    let max_speeds' := update_max name speed (max_speeds st) in
    fast ← is_fastball pitch_code;
    if (fast : bool) then
      Ok (Speeds max_speeds' (append_to name speed (fastball_speeds_dict st)))
    else
      Ok (Speeds max_speeds' (fastball_speeds_dict st))
  else Ok st.

(** The pitcher of a play, as the loop over [all_plays_data] reads it. *)
Definition play_pitcher (play : json) : py (json * json) :=
  matchup ← py_get play "matchup" (JObj []);
  pitcher_info ← py_get matchup "pitcher" (JObj []);
  pitcher_id ← py_get pitcher_info "id" JNull;
  pitcher_name_from_matchup ← matchup_name pitcher_info pitcher_id;
  Ok (pitcher_id, pitcher_name_from_matchup).

(** [for event in play['playEvents']] *)
Definition play_events (play : json) : py (list json) :=
  events ← py_index play "playEvents";
  py_iter events.

(** Body of the loop over [all_plays_data]. *)
Definition process_play (player_names : gmap pykey json) (st : speeds) (play : json)
  : py speeds :=
  has_events ← py_in "playEvents" play;
  if (has_events : bool) then
    pitcher ← play_pitcher play;
    let '(pitcher_id, pitcher_name_from_matchup) := pitcher in
    events ← play_events play;
    for_each (process_event player_names pitcher_id pitcher_name_from_matchup) st events
  else Ok st.

(** [liveData.allPlays], else [liveData.plays.allPlays] *)
Definition find_all_plays (game_data : json) : py json :=
  live ← py_get game_data "liveData" (JObj []);
  all_plays_data ← py_get live "allPlays" JNull;
  if is_None all_plays_data then
    live ← py_get game_data "liveData" (JObj []);
    plays ← py_get live "plays" (JObj []);
    py_get plays "allPlays" JNull
  else Ok all_plays_data.

(** [game_data.get("liveData", {}).get("players", {})] *)
Definition find_players (game_data : json) : py json :=
  live ← py_get game_data "liveData" (JObj []);
  py_get live "players" (JObj []).

(** What the body of the [try] block returns: [None] is the early
    [return {}, {}] after the missing-allPlays warning. *)
Definition extract_speeds (game_data : json) : py (option speeds) :=
  all_plays_data ← find_all_plays game_data;
  if is_None all_plays_data then Ok None
  else
    players_data_raw ← find_players game_data;
    player_names ← build_player_names players_data_raw;
    plays ← py_iter all_plays_data;
    st ← for_each (process_play player_names) (Speeds ∅ ∅) plays;
    Ok (Some st).

(** [extract_max_and_avg_fastball_speeds_from_file]: the pair of
    dictionaries returned, and the lines printed. *)
Definition extract_max_and_avg_fastball_speeds_from_file (file : game_file)
  : (gmap pykey Qc * gmap pykey Qc) * list message :=
  match file with
  | Missing => ((∅, ∅), [WarnFileNotFound])
  | Unreadable => ((∅, ∅), [WarnUnexpected])
  | NotJson => ((∅, ∅), [WarnNotJson])
  | Decoded game_data =>
      match extract_speeds game_data with
      | Ok (Some st) => ((max_speeds st, averages (fastball_speeds_dict st)), [])
      | Ok None => ((∅, ∅), [WarnNoAllPlays])
      | Raise _ => ((∅, ∅), [WarnUnexpected])
      end
  end.

(** *** The max-only extractor ([extract_max_speeds_from_file], and
    [get_max_speeds_from_game_api] after the download) *)
Definition process_event_max (player_names : gmap pykey json)
    (pitcher_id pitcher_name_from_matchup : json) (st : gmap pykey Qc) (event : json)
  : py (gmap pykey Qc) :=
  pitch_data ← py_get event "pitchData" JNull;
  qualifies ← has_start_speed pitch_data;
  if (qualifies : bool) then
    start_speed ← py_index pitch_data "startSpeed";
    speed ← py_float start_speed;
    final_name ← final_pitcher_name player_names pitcher_id pitcher_name_from_matchup;
    name ← to_key final_name;
    Ok (update_max name speed st)
  else Ok st.

Definition process_play_max (player_names : gmap pykey json) (st : gmap pykey Qc)
    (play : json) : py (gmap pykey Qc) :=
  has_events ← py_in "playEvents" play;
  if (has_events : bool) then
    pitcher ← play_pitcher play;
    let '(pitcher_id, pitcher_name_from_matchup) := pitcher in
    events ← play_events play;
    for_each (process_event_max player_names pitcher_id pitcher_name_from_matchup) st events
  else Ok st.

Definition extract_max (game_data : json) : py (option (gmap pykey Qc)) :=
  all_plays_data ← find_all_plays game_data;
  if is_None all_plays_data then Ok None
  else
    players_data_raw ← find_players game_data;
    player_names ← build_player_names players_data_raw;
    plays ← py_iter all_plays_data;
    st ← for_each (process_play_max player_names) ∅ plays;
    Ok (Some st).

Definition extract_max_speeds_from_file (file : game_file)
  : gmap pykey Qc * list message :=
  match file with
  | Missing => (∅, [WarnFileNotFound])
  | Unreadable => (∅, [WarnUnexpected])
  | NotJson => (∅, [WarnNotJson])
  | Decoded game_data =>
      match extract_max game_data with
      | Ok (Some st) => (st, [])
      | Ok None => (∅, [WarnNoAllPlays])
      | Raise _ => (∅, [WarnUnexpected])
      end
  end.

End Extractor.

(** ** Aggregation across games *)

(** [for name, speed in game_max_speeds.items():
       if speed > all_max_speeds[name]: all_max_speeds[name] = speed] *)
Definition merge_max (all_max_speeds game_max_speeds : gmap pykey Qc) : gmap pykey Qc :=
  for_items game_max_speeds (λ acc name speed, update_max name speed acc) all_max_speeds.

(** [for name, avg_speed in game_avg_fastball_speeds.items():
       all_avg_fastball_speeds[name].append(avg_speed)] *)
Definition merge_avg (all_avg_fastball_speeds : gmap pykey (list Qc))
    (game_avg_fastball_speeds : gmap pykey Qc) : gmap pykey (list Qc) :=
  for_items game_avg_fastball_speeds (λ acc name avg_speed, append_to name avg_speed acc)
    all_avg_fastball_speeds.

(** One turn of the loop over the files, given what the extractor
    returned for the file. *)
Definition aggregate_step (acc : gmap pykey Qc * gmap pykey (list Qc))
    (game : gmap pykey Qc * gmap pykey Qc) : gmap pykey Qc * gmap pykey (list Qc) :=
  (merge_max acc.1 game.1, merge_avg acc.2 game.2).

(** The loop of [aggregate_max_and_avg_speeds_from_directory] over the
    per-game results, followed by the final average of averages. *)
Definition aggregate_results (games : list (gmap pykey Qc * gmap pykey Qc))
  : gmap pykey Qc * gmap pykey Qc :=
  let acc := foldl aggregate_step (∅, ∅) games in
  (acc.1, averages acc.2).

(** [if speed > d.get(name, 0): d[name] = speed] on a plain dict, as
    [get_all_pitchers_max_speeds_for_date] merges. *)
Definition update_max_plain (name : pykey) (speed : Qc) (d : gmap pykey Qc) : gmap pykey Qc :=
  if decide (default 0 (d !! name) < speed) then <[name := speed]> d else d.

Definition merge_max_plain (all_max_speeds game_max_speeds : gmap pykey Qc) : gmap pykey Qc :=
  for_items game_max_speeds (λ acc name speed, update_max_plain name speed acc) all_max_speeds.

Section Aggregator.

Variable py_repr : json → string.
Variable float_of_str : string → option Qc.

(** The extractor's pair of dictionaries for each file of the
    directory, in the order [glob] lists them. *)
Definition game_results (files : list game_file) : list (gmap pykey Qc * gmap pykey Qc) :=
  map (λ file, (extract_max_and_avg_fastball_speeds_from_file py_repr float_of_str file).1) files.

Definition aggregate_max_and_avg_speeds_from_directory (files : list game_file)
  : gmap pykey Qc * gmap pykey Qc :=
  aggregate_results (game_results files).

(** The max-only script. *)
Definition aggregate_max_speeds_from_directory (files : list game_file) : gmap pykey Qc :=
  foldl merge_max ∅
    (map (λ file, (extract_max_speeds_from_file py_repr float_of_str file).1) files).

(** The merge of [get_all_pitchers_max_speeds_for_date] over the games
    of one date, each game given as its downloaded record. *)
Definition get_all_pitchers_max_speeds_for_date (games : list game_file) : gmap pykey Qc :=
  foldl merge_max_plain ∅
    (map (λ file, (extract_max_speeds_from_file py_repr float_of_str file).1) games).

End Aggregator.

(** ** Reporting *)

(** One value of the saved mapping. *)
Record pitcher_record := PitcherRecord {
  max_speed : Qc;
  avg_fastball_speed : Qc
}.

Global Instance pitcher_record_eq_dec : EqDecision pitcher_record.
Proof. solve_decision. Defined.

(** [sorted(items, key=key, reverse=True)]: a stable sort, largest key
    first; equal keys keep their order. *)
Fixpoint insert_desc {A : Type} (key : A → Qc) (x : A) (l : list A) : list A :=
  match l with
  | [] => [x]
  | y :: l' => if decide (key x < key y) then y :: insert_desc key x l' else x :: y :: l'
  end.

Definition sorted_desc {A : Type} (key : A → Qc) (l : list A) : list A :=
  foldr (insert_desc key) [] l.

(** [combined_dict], in insertion order.  [all_pitchers] is the order in
    which the loop meets the elements of the set of names. *)
Definition combined_dict (all_pitchers : list pykey) (max_speeds_dict avg_speeds_dict : gmap pykey Qc)
  : list (pykey * pitcher_record) :=
  map (λ name, (name, PitcherRecord (default 0 (max_speeds_dict !! name))
                                    (default 0 (avg_speeds_dict !! name))))
      all_pitchers.

(** [save_combined_speeds_to_json]: the ordered mapping handed to
    [json.dump], which writes it in that order. *)
Definition save_combined_speeds_to_json (all_pitchers : list pykey)
    (max_speeds_dict avg_speeds_dict : gmap pykey Qc) : list (pykey * pitcher_record) :=
  sorted_desc (λ item, max_speed item.2) (combined_dict all_pitchers max_speeds_dict avg_speeds_dict).

(** [set(max_speeds_dict.keys()).union(set(avg_speeds_dict.keys()))] *)
Definition all_pitchers_set (max_speeds_dict avg_speeds_dict : gmap pykey Qc) : gset pykey :=
  dom max_speeds_dict ∪ dom avg_speeds_dict.

(** The max-only script sorts the items of the aggregated dictionary
    before saving them. *)
Definition sorted_max_speeds (items : list (pykey * Qc)) : list (pykey * Qc) :=
  sorted_desc (λ item, item.2) items.

(** [__main__] of the combined script: whether anything is saved,
    [if all_max_speeds_2025 or all_avg_fastball_speeds_2025]. *)
Definition main_saves (py_repr : json → string) (float_of_str : string → option Qc)
    (files : list game_file) : bool :=
  let '(all_max_speeds_2025, all_avg_fastball_speeds_2025) :=
    aggregate_max_and_avg_speeds_from_directory py_repr float_of_str files in
  bool_decide (all_max_speeds_2025 ≠ ∅) || bool_decide (all_avg_fastball_speeds_2025 ≠ ∅).

(** ** Worked games *)

Definition pitch_event (speed : Z) (code : string) : json :=
  JObj [("pitchData", JObj [("startSpeed", JInt speed)]);
        ("details", JObj [("type", JObj [("code", JStr code)])])].

Definition play_of (pitcher : list (string * json)) (events : list json) : json :=
  JObj [("matchup", JObj [("pitcher", JObj pitcher)]); ("playEvents", JArr events)].

Definition game_of (plays : list json) : json :=
  JObj [("liveData", JObj [("plays", JObj [("allPlays", JArr plays)])])].

Definition game_A : game_file :=
  Decoded (game_of [play_of [("fullName", JStr "X")] [pitch_event 95 "FF"; pitch_event 97 "FF"]]).

Definition game_B : game_file :=
  Decoded (game_of [play_of [("fullName", JStr "X")] [pitch_event 93 "FF"; pitch_event 99 "CU"]]).

(** A game in which Z throws only a curveball, after X's fastball. *)
Definition game_C : game_file :=
  Decoded (game_of [play_of [("fullName", JStr "X")] [pitch_event 95 "FF"];
                    play_of [("fullName", JStr "Z")] [pitch_event 88 "CU"]]).


Definition pitcher_7 : list (string * json) :=
  [("id", JInt 7); ("fullName", JStr "Matchup Name")].

Definition play_7 : json := play_of pitcher_7 [pitch_event 97 "FF"].

(** A game whose second play has an event with a null speed. *)
Definition null_speed_event : json :=
  JObj [("pitchData", JObj [("startSpeed", JNull)]);
        ("details", JObj [("type", JObj [("code", JStr "FF")])])].

Definition game_D_data : json :=
  game_of [play_of [("fullName", JStr "X")] [pitch_event 95 "FF"];
           play_of [("fullName", JStr "Y")] [null_speed_event]].

(** A game in which X has one pitch with a type and a faster one
    without. *)
Definition untyped_event (speed : Z) : json :=
  JObj [("pitchData", JObj [("startSpeed", JInt speed)])].

Definition game_E : game_file :=
  Decoded (game_of [play_of [("fullName", JStr "X")] [pitch_event 95 "FF"; untyped_event 98]]).





(** A game in which X throws one pitch, measured at 0 mph. *)
Definition game_Z : game_file :=
  Decoded (game_of [play_of [("fullName", JStr "X")] [pitch_event 0 "FF"]]).

Definition no_repr : json → string := λ _, "".
Definition no_float : string → option Qc := λ _, None.

(** ** Vocabulary of the specification *)

(** [max(a, b)] *)
Definition Qc_max (a b : Qc) : Qc := if decide (a < b) then b else a.

(** The mean of a list of averages; nothing for the empty list. *)
Definition mean_of (l : list Qc) : option Qc :=
  if bool_decide (l ≠ []) then Some (mean l) else None.

(** A pitcher's per-game averages: one term for each game whose
    average map has the pitcher, in the order of the games. *)
Definition per_game_averages (name : pykey) (games : list (gmap pykey Qc * gmap pykey Qc))
  : list Qc :=
  omap (λ game, game.2 !! name) games.

(** A pitcher's per-game maxima, likewise. *)
Definition per_game_maxima (name : pykey) (game_maxes : list (gmap pykey Qc)) : list Qc :=
  omap (λ game_max, game_max !! name) game_maxes.

(** The running maximum as the specification writes it,
    [overall_max[name] = max(overall_max.get(name, -inf), game_max[name])]
    for every game that has the pitcher; [None] stands for minus
    infinity, the value before any such game. *)
Definition max_from (overall : option Qc) (v : Qc) : Qc :=
  match overall with
  | Some m => Qc_max m v
  | None => v
  end.

Definition running_max (name : pykey) (game_maxes : list (gmap pykey Qc)) : option Qc :=
  foldl (λ overall game_max,
           match game_max !! name with
           | Some v => Some (max_from overall v)
           | None => overall
           end) None game_maxes.

(** [m] is the greatest element of [l]. *)
Definition is_maximum (m : Qc) (l : list Qc) : Prop :=
  m ∈ l ∧ ∀ x, x ∈ l → x ≤ m.

(** *** Reading a record by its field names *)

(** The value found by following field names down from the top of a
    record. *)
Fixpoint json_path (path : list string) (v : json) : option json :=
  match path with
  | [] => Some v
  | key :: rest =>
      match v with
      | JObj fields => dict_lookup key fields ≫= json_path rest
      | _ => None
      end
  end.

(** The record has no play list at [path]: nothing is there, or null. *)
Definition lacks (path : list string) (v : json) : Prop :=
  ∀ x, json_path path v = Some x → x = JNull.





(** The pitcher object of a play's matchup; the empty object when the
    play names no matchup or the matchup no pitcher. *)
Definition matchup_pitcher (play : json) : option (list (string * json)) :=
  match play with
  | JObj fields =>
      match default (JObj []) (dict_lookup "matchup" fields) with
      | JObj matchup =>
          match default (JObj []) (dict_lookup "pitcher" matchup) with
          | JObj pitcher => Some pitcher
          | _ => None
          end
      | _ => None
      end
  | _ => None
  end.

(** The type code an event carries: [details.type.code], null when the
    type has no code. *)
Definition carried_code (event : json) : option json :=
  match event with
  | JObj fields =>
      match dict_lookup "details" fields with
      | Some (JObj details) =>
          match dict_lookup "type" details with
          | Some (JObj type) => Some (default JNull (dict_lookup "code" type))
          | _ => None
          end
      | _ => None
      end
  | _ => None
  end.

Section Resolution.

Variable py_repr : json → string.
Variable float_of_str : string → option Qc.

(** The speed an event carries: [pitchData.startSpeed], as a float. *)
Definition carried_speed (event : json) : option Qc :=
  match event with
  | JObj fields =>
      match dict_lookup "pitchData" fields with
      | Some (JObj pitch_data) =>
          match dict_lookup "startSpeed" pitch_data with
          | Some start_speed =>
              match py_float float_of_str start_speed with
              | Ok speed => Some speed
              | Raise _ => None
              end
          | None => None
          end
      | _ => None
      end
  | _ => None
  end.

(** The roster's full name for the pitcher's identifier. *)
Definition roster_name (player_names : gmap pykey json) (pitcher : list (string * json))
  : option json :=
  match dict_lookup "id" pitcher with
  | Some pitcher_id =>
      match to_key pitcher_id with
      | Ok k => player_names !! k
      | Raise _ => None
      end
  | None => None
  end.

(** The resolution order of the specification: (a) the roster's full
    name, else (b) the matchup's display name, else (c) a placeholder
    built from the identifier. *)
Definition resolved_name (player_names : gmap pykey json) (pitcher : list (string * json))
  : json :=
  match roster_name player_names pitcher with
  | Some full_name => full_name
  | None =>
      match dict_lookup "fullName" pitcher with
      | Some display_name => display_name
      | None =>
          JStr ("Unknown_Pitcher_Id_" +:+
                py_str py_repr (default JNull (dict_lookup "id" pitcher)))
      end
  end.

End Resolution.

(** *** The pitches of a game

    The extractor's two nested loops read one pitch at a time and fold
    it into the two dictionaries.  [read_game] is the reading alone:
    the pitches the loops meet, in order. *)

Record pitch := Pitch {
  pitch_pitcher : pykey;
  pitch_speed : Qc;
  pitch_fastball : bool
}.

(** What the loop body does with one pitch. *)
Definition record_pitch (st : speeds) (p : pitch) : speeds :=
  Speeds (update_max (pitch_pitcher p) (pitch_speed p) (max_speeds st))
         (if pitch_fastball p
          then append_to (pitch_pitcher p) (pitch_speed p) (fastball_speeds_dict st)
          else fastball_speeds_dict st).

(** The pitches of a list of items, read in order; an exception while
    reading any item is an exception of the whole. *)
Fixpoint collect {A B : Type} (read : A → py (list B)) (xs : list A) : py (list B) :=
  match xs with
  | [] => Ok []
  | x :: xs' => ys ← read x; zs ← collect read xs'; Ok (ys ++ zs)
  end.

(** The speeds of a pitcher's pitches, and of the pitcher's fastballs. *)
Definition speeds_of (name : pykey) (ps : list pitch) : list Qc :=
  pitch_speed <$> filter (λ p, pitch_pitcher p = name) ps.

Definition fastballs_of (name : pykey) (ps : list pitch) : list Qc :=
  pitch_speed <$> filter (λ p, pitch_pitcher p = name ∧ pitch_fastball p = true) ps.

Section Reading.

Variable py_repr : json → string.
Variable float_of_str : string → option Qc.

(** The pitch of an event that has a speed and a type, if any. *)
Definition read_event (player_names : gmap pykey json)
    (pitcher_id pitcher_name_from_matchup : json) (event : json) : py (list pitch) :=
  pitch_data ← py_get event "pitchData" JNull;
  details ← py_get event "details" JNull;
  qualifies ← has_speed_and_type pitch_data details;
  if (qualifies : bool) then
    start_speed ← py_index pitch_data "startSpeed";
    speed ← py_float float_of_str start_speed;
    type ← py_index details "type";
    pitch_code ← py_get type "code" JNull;
    final_name ← final_pitcher_name player_names pitcher_id pitcher_name_from_matchup;
    name ← to_key final_name;
    fast ← is_fastball pitch_code;
    Ok [Pitch name speed fast]
  else Ok [].

Definition read_play (player_names : gmap pykey json) (play : json) : py (list pitch) :=
  has_events ← py_in "playEvents" play;
  if (has_events : bool) then
    pitcher ← play_pitcher py_repr play;
    let '(pitcher_id, pitcher_name_from_matchup) := pitcher in
    events ← play_events play;
    collect (read_event player_names pitcher_id pitcher_name_from_matchup) events
  else Ok [].

(** [None]: the record has no play list. *)
Definition read_game (game_data : json) : py (option (list pitch)) :=
  all_plays_data ← find_all_plays game_data;
  if is_None all_plays_data then Ok None
  else
    players_data_raw ← find_players game_data;
    player_names ← build_player_names players_data_raw;
    plays ← py_iter all_plays_data;
    ps ← collect (read_play player_names) plays;
    Ok (Some ps).

(** The pitches the extractor folds in for a file: none when the file
    gives no record, the record has no play list, or reading raises. *)
Definition pitches_of_file (file : game_file) : list pitch :=
  match file with
  | Decoded game_data =>
      match read_game game_data with
      | Ok (Some ps) => ps
      | _ => []
      end
  | _ => []
  end.

End Reading.

(** *** The loops around one event

    The state in which the two nested loops of the combined extractor
    reach an event that comes after [events_before] in a play that comes
    after [plays_before], and the state they end in from the event's
    successor on. *)

Section Around_event.

Variable py_repr : json → string.
Variable float_of_str : string → option Qc.



End Around_event.

(** Largest key first. *)
Definition key_ge {A : Type} (key : A → Qc) (a b : A) : Prop := key b ≤ key a.

(** [bool(v)] read off the key of a hashable [v]. *)
Definition key_truthy (k : pykey) : bool :=
  match k with
  | KNone => false
  | KNum q => bool_decide (q ≠ 0)
  | KStr s => bool_decide (s ≠ "")
  end.

(** The fastballs among a run of pitches. *)
Definition fastball_pitches (ps : list pitch) : list pitch :=
  filter (λ p, pitch_fastball p = true) ps.

(** What the max-only loop body does with one reading. *)
Definition record_max (d : gmap pykey Qc) (reading : pykey * Qc) : gmap pykey Qc :=
  update_max reading.1 reading.2 d.

Section Reading_max.

Variable py_repr : json → string.
Variable float_of_str : string → option Qc.

(** The reading of an event that has a speed, for the max-only
    extractor. *)
Definition read_event_max (player_names : gmap pykey json)
    (pitcher_id pitcher_name_from_matchup : json) (event : json) : py (list (pykey * Qc)) :=
  pitch_data ← py_get event "pitchData" JNull;
  qualifies ← has_start_speed pitch_data;
  if (qualifies : bool) then
    start_speed ← py_index pitch_data "startSpeed";
    speed ← py_float float_of_str start_speed;
    final_name ← final_pitcher_name player_names pitcher_id pitcher_name_from_matchup;
    name ← to_key final_name;
    Ok [(name, speed)]
  else Ok [].

Definition read_play_max (player_names : gmap pykey json) (play : json)
  : py (list (pykey * Qc)) :=
  has_events ← py_in "playEvents" play;
  if (has_events : bool) then
    pitcher ← play_pitcher py_repr play;
    let '(pitcher_id, pitcher_name_from_matchup) := pitcher in
    events ← play_events play;
    collect (read_event_max player_names pitcher_id pitcher_name_from_matchup) events
  else Ok [].

End Reading_max.

(** ** The arithmetic of the loops in binary64

    Python's [float] is IEEE 754 binary64, as are the primitive floats
    used here.  For one pitcher, all of whose pitches are fastballs, a
    game is the list of the pitcher's speeds in the order thrown. *)

Module Binary64.

(** [if speed > d[name]: d[name] = speed] *)
Definition update_max (current speed : float) : float :=
  if (current <? speed)%float then speed else current.

(** [sum(l)] as CPython computes it up to version 3.11: left to right. *)
Definition sum_plain (l : list float) : float :=
  foldl PrimFloat.add 0%float l.

(** [sum(l)] as CPython computes it from version 3.12 on: left to
    right, with Neumaier's compensation added at the end. *)
Definition compensate (acc : float * float) (x : float) : float * float :=
  let t := (acc.1 + x)%float in
  if (PrimFloat.abs x <=? PrimFloat.abs acc.1)%float
  then (t, (acc.2 + ((acc.1 - t) + x))%float)
  else (t, (acc.2 + ((x - t) + acc.1))%float).

Definition sum_compensated (l : list float) : float :=
  let acc := foldl compensate (0%float, 0%float) l in
  (acc.1 + acc.2)%float.

(** [sum(l) / len(l)] *)
Definition mean (sum : list float → float) (l : list float) : float :=
  (sum l / PrimFloat.of_uint63 (Uint63.of_Z (Z.of_nat (length l))))%float.

(** The maximum recorded for the pitcher in one game. *)
Definition game_max (speeds : list float) : float :=
  foldl update_max 0%float speeds.

(** The aggregated maximum and average of the pitcher over the games. *)
Definition aggregated_max (games : list (list float)) : float :=
  foldl update_max 0%float (game_max <$> games).

Definition aggregated_avg (sum : list float → float) (games : list (list float)) : float :=
  mean sum (mean sum <$> games).

(** 85.4, and a game of three fastballs at that speed. *)
Definition mph_85_4 : float := 0x1.559999999999ap+6%float.

Definition three_fastballs : list float := [mph_85_4; mph_85_4; mph_85_4].

End Binary64.

Section Reading_max_game.

Variable py_repr : json → string.
Variable float_of_str : string → option Qc.

(** The readings the max-only extractor meets in a record, in order;
    [None]: the record has no play list. *)
Definition read_game_max (game_data : json) : py (option (list (pykey * Qc))) :=
  all_plays_data ← find_all_plays game_data;
  if is_None all_plays_data then Ok None
  else
    players_data_raw ← find_players game_data;
    player_names ← build_player_names players_data_raw;
    plays ← py_iter all_plays_data;
    rs ← collect (read_play_max py_repr float_of_str player_names) plays;
    Ok (Some rs).

(** The readings the max-only extractor folds in for a file. *)
Definition readings_of_file (file : game_file) : list (pykey * Qc) :=
  match file with
  | Decoded game_data =>
      match read_game_max game_data with
      | Ok (Some rs) => rs
      | _ => []
      end
  | _ => []
  end.

End Reading_max_game.

(** ** Schedules, and the scripts that walk them

    A date is its ordinal, the day count [datetime] compares and
    [timedelta(days=1)] advances.  The network is a parameter: what
    [requests.get], [raise_for_status] and [response.json] deliver for
    a request.  No exception of the schedule walk is caught by the
    scripts; it is the result [Raise] of the model. *)

Inductive response :=
| RequestFailed                (* RequestException *)
| BodyNotJson                  (* JSONDecodeError *)
| Body (data : json).

(** [get_schedule_data_for_date]: the decoded schedule, or the empty
    dictionary after a failed request. *)
Definition get_schedule_data_for_date (answer : response) : json :=
  match answer with
  | Body data => data
  | RequestFailed | BodyNotJson => JObj []
  end.

(** [v[0]] for a truthy [v] (an empty list or string is not truthy). *)
Definition py_first (v : json) : py json :=
  match v with
  | JArr (x :: _) => Ok x
  | JStr (String c _) => Ok (JStr (String c EmptyString))
  | JObj _ => Raise KeyError
  | _ => Raise TypeError
  end.

(** The games a schedule lists: none when [schedule_data.get("dates", [])]
    is falsy, else those of [dates_data[0].get("games", [])], whose
    length is printed before the loop runs over them. *)
Definition schedule_games (schedule_data : json) : py (list json) :=
  dates_data ← py_get schedule_data "dates" (JArr []);
  if py_truthy dates_data then
    first_date ← py_first dates_data;
    games_list ← py_get first_date "games" (JArr []);
    py_iter games_list
  else Ok [].

(** The dates from [start] to [end], both included. *)
Definition date_range (start_date end_date : Z) : list Z :=
  seqZ start_date (end_date - start_date + 1).

(** What the game endpoint's answer is to the max-only extractor. *)
Definition response_file (answer : response) : game_file :=
  match answer with
  | RequestFailed => Unreadable
  | BodyNotJson => NotJson
  | Body data => Decoded data
  end.

Section Season.

Variable py_repr : json → string.
Variable float_of_str : string → option Qc.
Variable get : string → response.
Variable schedule_on : Z → response.
Variable schedule_for_count : Z → response.

(** [get_max_speeds_from_game_api]: the dictionary returned. *)
Definition get_max_speeds_from_game_api (game_url : string) : gmap pykey Qc :=
  (extract_max_speeds_from_file py_repr float_of_str (response_file (get game_url))).1.

(** Body of the loop over [games_list] in
    [get_all_pitchers_max_speeds_for_date]. *)
Definition merge_game (all_max_speeds_for_date : gmap pykey Qc) (game : json)
  : py (gmap pykey Qc) :=
  game_link ← py_get game "link" JNull;
  if py_truthy game_link then
    game_pk ← py_get game "gamePk" JNull;
    Ok (merge_max_plain all_max_speeds_for_date
          (get_max_speeds_from_game_api ("https://statsapi.mlb.com" +:+ py_str py_repr game_link)))
  else Ok all_max_speeds_for_date.

(** [get_all_pitchers_max_speeds_for_date], from the schedule's answer
    for the date. *)
Definition max_speeds_for_schedule (answer : response) : py (gmap pykey Qc) :=
  games ← schedule_games (get_schedule_data_for_date answer);
  for_each merge_game ∅ games.

(** Body of the loop over the dates in
    [get_all_pitchers_max_speeds_for_year]: the day's dictionary, the
    second schedule request that counts the day's games, the merge. *)
Definition merge_day (acc : gmap pykey Qc * nat) (day : Z) : py (gmap pykey Qc * nat) :=
  all_max_speeds_for_day ← max_speeds_for_schedule (schedule_on day);
  games ← schedule_games (get_schedule_data_for_date (schedule_for_count day));
  Ok (merge_max acc.1 all_max_speeds_for_day, (acc.2 + length games)%nat).

(** [get_all_pitchers_max_speeds_for_year]: the dictionary returned and
    the count printed. *)
Definition get_all_pitchers_max_speeds_for_year (start_date end_date : Z)
  : py (gmap pykey Qc * nat) :=
  for_each merge_day (∅, 0%nat) (date_range start_date end_date).

(** What the date function reads for a scheduled game: the game
    endpoint's answer when the game has a link, nothing otherwise. *)
Definition linked_game (game : json) : py (list game_file) :=
  game_link ← py_get game "link" JNull;
  Ok (if py_truthy game_link
      then [response_file (get ("https://statsapi.mlb.com" +:+ py_str py_repr game_link))]
      else []).

(** The games a date's schedule lists, those read on a date, and both
    over a range of dates. *)
Definition games_listed_on (day : Z) : py (list json) :=
  schedule_games (get_schedule_data_for_date (schedule_on day)).

Definition games_read_on (day : Z) : py (list game_file) :=
  games ← games_listed_on day;
  collect linked_game games.

Definition games_listed (start_date end_date : Z) : py (list json) :=
  collect games_listed_on (date_range start_date end_date).

Definition games_read (start_date end_date : Z) : py (list game_file) :=
  collect games_read_on (date_range start_date end_date).

End Season.

(** ** Downloading

    The output directory is the map from the names of its files to
    what they hold: a file is identified by its name (the identifiers
    of the API are integers, so a name has no path separator).
    [os.makedirs], [open] and [json.dump] are library calls:
    [write name data] is what they do for a file that does not exist
    yet. *)

Inductive file_content :=
| Dumped (data : json)         (* the text [json.dump] writes for [data] *)
| Partial.                     (* what a dump that raised left in the file *)

Inductive write_result :=
| Written
| NotCreated                   (* [os.makedirs] or [open] raises *)
| Interrupted.                 (* [json.dump] or the closing raises: the file exists *)

Record tally := Tally {
  total_games_processed : nat;
  total_games_skipped : nat;
  total_games_failed : nat
}.

Section Download.

Variable py_repr : json → string.
Variable get : string → response.
Variable schedule_on : Z → response.
Variable write : string → json → write_result.

Definition game_feed_url (game_pk : json) : string :=
  "https://statsapi.mlb.com/api/v1.1/game/" +:+ py_str py_repr game_pk +:+ "/feed/live".

Definition game_file_name (game_pk : json) : string :=
  "game_" +:+ py_str py_repr game_pk +:+ ".json".

(** [download_game_data]: the directory afterwards and the value
    returned.  Every exception of the request and of the writing is
    caught. *)
Definition download_game_data (dir : gmap string file_content) (game_pk : json)
  : gmap string file_content * bool :=
  if bool_decide (is_Some (dir !! game_file_name game_pk)) then (dir, true)
  else
    match get (game_feed_url game_pk) with
    | Body data =>
        match write (game_file_name game_pk) data with
        | Written => (<[game_file_name game_pk := Dumped data]> dir, true)
        | NotCreated => (dir, false)
        | Interrupted => (<[game_file_name game_pk := Partial]> dir, false)
        end
    | RequestFailed | BodyNotJson => (dir, false)
    end.

(** Body of the loop over [games_list] in
    [download_all_games_for_year]. *)
Definition download_listed_game (st : gmap string file_content * tally) (game : json)
  : py (gmap string file_content * tally) :=
  game_pk ← py_get game "gamePk" JNull;
  if py_truthy game_pk then
    let '(dir, success) := download_game_data st.1 game_pk in
    let t := st.2 in
    if success then
      if bool_decide (is_Some (dir !! game_file_name game_pk))
      then Ok (dir, Tally (total_games_processed t) (S (total_games_skipped t))
                          (total_games_failed t))
      else Ok (dir, Tally (S (total_games_processed t)) (total_games_skipped t)
                          (total_games_failed t))
    else Ok (dir, Tally (total_games_processed t) (total_games_skipped t)
                        (S (total_games_failed t)))
  else Ok st.

(** Body of the loop over the dates. *)
Definition download_day (st : gmap string file_content * tally) (day : Z)
  : py (gmap string file_content * tally) :=
  games ← schedule_games (get_schedule_data_for_date (schedule_on day));
  for_each download_listed_game st games.

(** [download_all_games_for_year]: the directory afterwards and the
    three counts printed. *)
Definition download_all_games_for_year (dir : gmap string file_content) (start_date end_date : Z)
  : py (gmap string file_content * tally) :=
  for_each download_day (dir, Tally 0 0 0) (date_range start_date end_date).

(** An attempt on [game_pk] leaves a file: the endpoint delivers data
    and the file is at least opened. *)
Definition leaves_file (game_pk : json) : bool :=
  match get (game_feed_url game_pk) with
  | Body data =>
      match write (game_file_name game_pk) data with
      | Written | Interrupted => true
      | NotCreated => false
      end
  | RequestFailed | BodyNotJson => false
  end.

(** What a file the script made holds: the dump of what the endpoint
    delivered for a game of that name, or the rest of a dump that
    raised. *)
Definition made_by_script (name : string) (content : file_content) : Prop :=
  ∃ game_pk data,
    name = game_file_name game_pk ∧ get (game_feed_url game_pk) = Body data ∧
    ((content = Dumped data ∧ write name data = Written) ∨
     (content = Partial ∧ write name data = Interrupted)).

(** The three facts a run keeps, relative to the directory [dir0] it
    started from. *)
Definition kept (dir0 : gmap string file_content) (st : gmap string file_content * tally)
  : Prop :=
  dir0 ⊆ st.1 ∧
  total_games_processed st.2 = 0%nat ∧
  ∀ name content, st.1 !! name = Some content →
    dir0 !! name = Some content ∨ made_by_script name content.

End Download.

(** The counts one tally adds to another. *)
Definition tally_add (t d : tally) : tally :=
  Tally (total_games_processed t + total_games_processed d)
        (total_games_skipped t + total_games_skipped d)
        (total_games_failed t + total_games_failed d).

(** How the counts [d'] of a second run relate to the counts [d] of
    the first: as many games attempted, none more failed, and the same
    counts when no dump is ever interrupted. *)
Definition rerun_of (write : string → json → write_result) (d d' : tally) : Prop :=
  total_games_processed d' = total_games_processed d ∧
  (total_games_skipped d' + total_games_failed d' =
   total_games_skipped d + total_games_failed d)%nat ∧
  (total_games_failed d' ≤ total_games_failed d)%nat ∧
  ((∀ name data, write name data ≠ Interrupted) → d' = d).

(** ** A worked schedule

    Every date lists the games 1 and 2, game 2 without a link.  The
    game endpoint knows game 1 only. *)

Definition listed_game (game_pk : Z) (link : list (string * json)) : json :=
  JObj (("gamePk", JInt game_pk) :: link).

Definition schedule_1_2 : Z → response := λ _,
  Body (JObj [("dates",
               JArr [JObj [("games",
                            JArr [listed_game 1 [("link", JStr "/api/v1.1/game/1/feed/live")];
                                  listed_game 2 []])]])]).

Definition endpoint_1 : string → response := λ url,
  if bool_decide (url = "https://statsapi.mlb.com/api/v1.1/game/1/feed/live")
  then Body (game_of [play_of [("fullName", JStr "X")] [pitch_event 95 "FF"]])
  else RequestFailed.

(** A schedule endpoint that answers with a list instead of an object. *)
Definition schedule_not_object : Z → response := λ _, Body (JArr []).

Definition always_written : string → json → write_result := λ _ _, Written.

(** * Properties *)

(** ** Dictionary loops *)

Lemma update_max_lookup name speed (d : gmap pykey Qc) :
  update_max name speed d !! name = Some (Qc_max (default 0 (d !! name)) speed).
Proof.
  unfold update_max, defaultdict_get, Qc_max.
  destruct (d !! name) as [v|] eqn:E; simpl; case_decide;
    rewrite ?lookup_insert_eq; done.
Qed.

Lemma update_max_lookup_ne name name' speed (d : gmap pykey Qc) :
  name ≠ name' → update_max name speed d !! name' = d !! name'.
Proof.
  intros Hne. unfold update_max, defaultdict_get.
  destruct (d !! name) as [v|] eqn:E; simpl; case_decide;
    rewrite ?lookup_insert_ne; done.
Qed.

Lemma append_to_lookup name x (d : gmap pykey (list Qc)) :
  append_to name x d !! name = Some (default [] (d !! name) ++ [x]).
Proof.
  unfold append_to, defaultdict_get.
  destruct (d !! name) as [l|] eqn:E; simpl; by rewrite lookup_insert_eq.
Qed.

Lemma append_to_lookup_ne name name' x (d : gmap pykey (list Qc)) :
  name ≠ name' → append_to name x d !! name' = d !! name'.
Proof.
  intros Hne. unfold append_to, defaultdict_get.
  destruct (d !! name) as [l|] eqn:E; simpl; rewrite ?lookup_insert_ne; done.
Qed.

Section for_items.
Context {V B : Type}.
Variable body : gmap pykey B → pykey → V → gmap pykey B.
Variable at_key : pykey → V → option B → option B.
Hypothesis body_eq : ∀ acc k v, body acc k v !! k = at_key k v (acc !! k).
Hypothesis body_ne : ∀ acc k v k', k ≠ k' → body acc k v !! k' = acc !! k'.

Lemma foldl_items_lookup (l : list (pykey * V)) init k :
  NoDup l.*1 →
  foldl (λ acc kv, body acc kv.1 kv.2) init l !! k =
    match list_find (λ kv, kv.1 = k) l with
    | Some (_, (_, v)) => at_key k v (init !! k)
    | None => init !! k
    end.
Proof.
  revert init. induction l as [|[k' v'] l IH]; intros init Hnd; [done|].
  apply NoDup_cons in Hnd as [Hk' Hnd]. simpl.
  rewrite IH by done. case_decide as Hk; simpl in Hk.
  - subst k'. rewrite body_eq.
    destruct (list_find _ l) as [[i [k2 v2]]|] eqn:Hf; simpl; [|done].
    apply list_find_Some in Hf as (Hi & Hk2 & _). simpl in Hk2. subst k2.
    exfalso. apply Hk'. apply list_elem_of_fmap. exists (k, v2).
    split; [done|]. by eapply list_elem_of_lookup_2.
  - rewrite body_ne by done.
    by destruct (list_find _ l) as [[i [k2 v2]]|].
Qed.

Lemma for_items_lookup (d : gmap pykey V) init k :
  for_items d body init !! k =
    match d !! k with
    | Some v => at_key k v (init !! k)
    | None => init !! k
    end.
Proof.
  unfold for_items. rewrite foldl_items_lookup by apply NoDup_fst_map_to_list.
  destruct (list_find _ (map_to_list d)) as [[i [k2 v2]]|] eqn:Hf.
  - apply list_find_Some in Hf as (Hi & Hk2 & _). simpl in Hk2. subst k2.
    apply list_elem_of_lookup_2, elem_of_map_to_list in Hi. by rewrite Hi.
  - destruct (d !! k) as [v|] eqn:E; [|done].
    apply elem_of_map_to_list in E.
    eapply list_find_None, Forall_forall in Hf; [|exact E]. by destruct Hf.
Qed.
End for_items.

Lemma averages_lookup (d : gmap pykey (list Qc)) name :
  averages d !! name = d !! name ≫= mean_of.
Proof.
  unfold averages.
  rewrite (for_items_lookup _ (λ _ l o, if bool_decide (l ≠ []) then Some (mean l) else o)).
  - rewrite lookup_empty. by destruct (d !! name).
  - intros acc k v. case_bool_decide; [by rewrite lookup_insert_eq|done].
  - intros acc k v k' Hne. case_bool_decide; [by rewrite lookup_insert_ne|done].
Qed.

Lemma merge_max_lookup (all_max game_max : gmap pykey Qc) name :
  merge_max all_max game_max !! name =
    match game_max !! name with
    | Some speed => Some (Qc_max (default 0 (all_max !! name)) speed)
    | None => all_max !! name
    end.
Proof.
  unfold merge_max.
  rewrite (for_items_lookup _ (λ _ speed o, Some (Qc_max (default 0 o) speed))).
  - done.
  - intros. apply update_max_lookup.
  - intros. by apply update_max_lookup_ne.
Qed.

Lemma merge_avg_lookup (all_avg : gmap pykey (list Qc)) (game_avg : gmap pykey Qc) name :
  merge_avg all_avg game_avg !! name =
    match game_avg !! name with
    | Some a => Some (default [] (all_avg !! name) ++ [a])
    | None => all_avg !! name
    end.
Proof.
  unfold merge_avg.
  rewrite (for_items_lookup _ (λ _ a o, Some (default [] o ++ [a]))).
  - done.
  - intros. apply append_to_lookup.
  - intros. by apply append_to_lookup_ne.
Qed.

Ltac by_computation := apply (bool_decide_unpack _); vm_compute; exact I.

(** ** The aggregator's loop over the games *)

Lemma per_game_averages_cons name g games :
  per_game_averages name (g :: games) =
    match g.2 !! name with
    | Some a => a :: per_game_averages name games
    | None => per_game_averages name games
    end.
Proof. unfold per_game_averages. simpl. by destruct (g.2 !! name). Qed.

Lemma per_game_maxima_cons name (g : gmap pykey Qc) game_maxes :
  per_game_maxima name (g :: game_maxes) =
    match g !! name with
    | Some a => a :: per_game_maxima name game_maxes
    | None => per_game_maxima name game_maxes
    end.
Proof. unfold per_game_maxima. simpl. by destruct (g !! name). Qed.

Lemma aggregate_loop_avg games acc name :
  (foldl aggregate_step acc games).2 !! name =
    match per_game_averages name games with
    | [] => acc.2 !! name
    | l => Some (default [] (acc.2 !! name) ++ l)
    end.
Proof.
  revert acc. induction games as [|g games IH]; intros acc; [done|].
  cbn [foldl]. rewrite IH, per_game_averages_cons.
  unfold aggregate_step at 1 2. cbn [snd]. rewrite merge_avg_lookup.
  destruct (g.2 !! name) as [a|]; [|done].
  destruct (per_game_averages name games); simpl; [done|].
  by rewrite <-app_assoc.
Qed.

Lemma aggregate_loop_max games acc name :
  (foldl aggregate_step acc games).1 !! name =
    match per_game_maxima name games.*1 with
    | [] => acc.1 !! name
    | l => Some (foldl Qc_max (default 0 (acc.1 !! name)) l)
    end.
Proof.
  revert acc. induction games as [|g games IH]; intros acc; [done|].
  cbn [foldl]. rewrite IH, fmap_cons, per_game_maxima_cons.
  unfold aggregate_step at 1 2. cbn [fst]. rewrite merge_max_lookup.
  destruct (g.1 !! name) as [a|]; [|done].
  by destruct (per_game_maxima name games.*1).
Qed.

Lemma aggregate_results_avg games name :
  (aggregate_results games).2 !! name = mean_of (per_game_averages name games).
Proof.
  unfold aggregate_results. simpl. rewrite averages_lookup, aggregate_loop_avg.
  simpl. rewrite lookup_empty. by destruct (per_game_averages name games).
Qed.

(** C1.  The aggregated average fastball speed of a pitcher is the
    unweighted mean of the pitcher's per-game averages, one term for
    each game whose average map has the pitcher; it is absent when no
    game has.  In particular per-game averages 90 and 92 aggregate to
    91, whatever the games that produced them, and do so in binary64
    as well. *)
Theorem aggregated_avg_is_mean_of_game_averages
    (games : list (gmap pykey Qc * gmap pykey Qc)) (name : pykey) :
  (aggregate_results games).2 !! name = mean_of (per_game_averages name games) ∧
  (per_game_averages name games = [Qc_of_Z 90; Qc_of_Z 92] →
   (aggregate_results games).2 !! name = Some (Qc_of_Z 91)) ∧
  Binary64.mean Binary64.sum_plain [90%float; 92%float] = 91%float ∧
  Binary64.mean Binary64.sum_compensated [90%float; 92%float] = 91%float.
Proof.
  split_and!; [apply aggregate_results_avg| |by vm_compute..].
  intros Hl. rewrite aggregate_results_avg, Hl. by_computation.
Qed.

Lemma aggregated_avg_is_mean_of_game_averages_witness :
  (aggregate_results [(∅, {[KStr "X" := Qc_of_Z 90]}); (∅, ∅);
                      (∅, {[KStr "X" := Qc_of_Z 92]})]).2 !! KStr "X"
  = Some (Qc_of_Z 91).
Proof.
  apply (proj1 (proj2 (aggregated_avg_is_mean_of_game_averages _ (KStr "X")))).
  by_computation.
Defined.

(** ** Reading and recording *)

Lemma bind_Ok {A B : Type} (f : A → py B) (a : A) : (Ok a ≫= f) = f a.
Proof. done. Qed.

Lemma bind_Raise {A B : Type} (f : A → py B) (e : exn) : (Raise e ≫= f) = Raise e.
Proof. done. Qed.

(** Case analysis on the first call of a sequence of calls. *)
Ltac step_bind :=
  match goal with
  | |- context [mbind _ ?m] =>
      lazymatch m with
      | context [mbind _ _] => fail
      | _ => destruct m eqn:?; rewrite ?bind_Ok, ?bind_Raise
      end
  end.

Lemma for_each_collect {A S B : Type} (body : S → A → py S) (read : A → py (list B))
    (rec : S → B → S) :
  (∀ st x, body st x = ys ← read x; Ok (foldl rec st ys)) →
  ∀ xs st, for_each body st xs = ys ← collect read xs; Ok (foldl rec st ys).
Proof.
  intros Hbody xs. induction xs as [|x xs IH]; intros st; [done|].
  cbn [for_each collect]. rewrite Hbody.
  destruct (read x) as [ys|e]; rewrite ?bind_Ok, ?bind_Raise; [|done].
  rewrite IH. destruct (collect read xs) as [zs|e]; rewrite ?bind_Ok, ?bind_Raise; [|done].
  by rewrite foldl_app.
Qed.

Lemma collect_elem_of {A B : Type} (read : A → py (list B)) xs ys b :
  collect read xs = Ok ys →
  b ∈ ys ↔ ∃ x zs, x ∈ xs ∧ read x = Ok zs ∧ b ∈ zs.
Proof.
  revert ys. induction xs as [|x xs IH]; intros ys; cbn [collect].
  - intros [= <-]. split; [by intros ?%elem_of_nil|].
    by intros (? & ? & ?%elem_of_nil & _).
  - destruct (read x) as [zs|e] eqn:Hx; rewrite ?bind_Ok, ?bind_Raise; [|done].
    destruct (collect read xs) as [ws|e] eqn:Hxs; rewrite ?bind_Ok, ?bind_Raise; [|done].
    intros [= <-]. rewrite elem_of_app, (IH ws) by done. split.
    + intros [Hb|(x' & zs' & Hin & Hr & Hb)].
      * exists x, zs. split_and!; [left|done..].
      * exists x', zs'. split_and!; [by right|done..].
    + intros (x' & zs' & Hin & Hr & Hb). apply elem_of_cons in Hin as [->|Hin].
      * left. congruence.
      * right. eauto.
Qed.

Section Reading_facts.

Variable py_repr : json → string.
Variable float_of_str : string → option Qc.

Lemma process_event_read player_names pitcher_id name_from_matchup st event :
  process_event float_of_str player_names pitcher_id name_from_matchup st event =
    ps ← read_event float_of_str player_names pitcher_id name_from_matchup event;
    Ok (foldl record_pitch st ps).
Proof.
  unfold process_event, read_event.
  repeat (step_bind; [|done]).
  match goal with b : bool |- _ => destruct b end; [|done].
  repeat (step_bind; [|done]).
  match goal with b : bool |- _ => destruct b end; done.
Qed.

Lemma process_play_read player_names st play :
  process_play py_repr float_of_str player_names st play =
    ps ← read_play py_repr float_of_str player_names play;
    Ok (foldl record_pitch st ps).
Proof.
  unfold process_play, read_play.
  step_bind; [|done].
  match goal with b : bool |- _ => destruct b end; [|done].
  step_bind; [|done].
  match goal with p : (json * json)%type |- _ => destruct p end.
  step_bind; [|done].
  apply for_each_collect. intros. apply process_event_read.
Qed.

Lemma extract_speeds_read game_data :
  extract_speeds py_repr float_of_str game_data =
    o ← read_game py_repr float_of_str game_data;
    Ok (foldl record_pitch (Speeds ∅ ∅) <$> (o : option (list pitch))).
Proof.
  unfold extract_speeds, read_game.
  step_bind; [|done].
  destruct (is_None _); [done|].
  repeat (step_bind; [|done]).
  rewrite (for_each_collect _ (read_play py_repr float_of_str _) record_pitch)
    by (intros; apply process_play_read).
  by step_bind.
Qed.

End Reading_facts.

(** ** Order facts *)

Lemma Qc_max_ge_l a b : a ≤ Qc_max a b.
Proof. unfold Qc_max. case_decide; [by apply Qclt_le_weak|done]. Qed.

Lemma Qc_max_ge_r a b : b ≤ Qc_max a b.
Proof. unfold Qc_max. case_decide; [done|by apply Qcnot_lt_le]. Qed.

Lemma Qc_max_cases a b : Qc_max a b = a ∨ Qc_max a b = b.
Proof. unfold Qc_max. case_decide; auto. Qed.

Lemma Qc_max_lub a b c : a ≤ c → b ≤ c → Qc_max a b ≤ c.
Proof. intros. by destruct (Qc_max_cases a b) as [-> | ->]. Qed.

Lemma Qc_max_comm a b : Qc_max a b = Qc_max b a.
Proof.
  apply (anti_symm (≤)); apply Qc_max_lub; auto using Qc_max_ge_l, Qc_max_ge_r.
Qed.

Lemma Qc_max_assoc a b c : Qc_max (Qc_max a b) c = Qc_max a (Qc_max b c).
Proof.
  apply (anti_symm (≤)); repeat apply Qc_max_lub;
    eauto using Qc_max_ge_l, Qc_max_ge_r, Qcle_trans.
Qed.

Lemma Qc_max_l a b : b ≤ a → Qc_max a b = a.
Proof. intros. apply (anti_symm (≤)); [by apply Qc_max_lub|apply Qc_max_ge_l]. Qed.

Lemma foldl_max_ge_init l a : a ≤ foldl Qc_max a l.
Proof.
  revert a. induction l as [|x l IH]; intros a; [done|].
  simpl. etrans; [apply (Qc_max_ge_l a x)|apply IH].
Qed.

Lemma foldl_max_ge_elem l a x : x ∈ l → x ≤ foldl Qc_max a l.
Proof.
  revert a. induction l as [|y l IH]; intros a; [by intros ?%elem_of_nil|].
  intros [->|Hin]%elem_of_cons; simpl.
  - etrans; [apply (Qc_max_ge_r a y)|apply foldl_max_ge_init].
  - by apply IH.
Qed.

Lemma foldl_max_attained l a : foldl Qc_max a l = a ∨ foldl Qc_max a l ∈ l.
Proof.
  revert a. induction l as [|y l IH]; intros a; [by left|].
  simpl. destruct (IH (Qc_max a y)) as [->|Hin].
  - destruct (Qc_max_cases a y) as [->| ->]; [by left|right; left].
  - right. by right.
Qed.

Lemma foldl_max_lub l a c : a ≤ c → (∀ x, x ∈ l → x ≤ c) → foldl Qc_max a l ≤ c.
Proof.
  intros Ha Hl. destruct (foldl_max_attained l a) as [->|Hin]; auto.
Qed.

Lemma foldl_max_Permutation l l' a : l ≡ₚ l' → foldl Qc_max a l = foldl Qc_max a l'.
Proof.
  intros Hp. apply (anti_symm (≤)); apply foldl_max_lub;
    try apply foldl_max_ge_init; intros x Hx; apply foldl_max_ge_elem.
  - by rewrite <-Hp.
  - by rewrite Hp.
Qed.

Lemma Qc_of_nat_succ (n : nat) : Qc_of_Z (Z.of_nat (S n)) = Qc_of_Z (Z.of_nat n) + 1.
Proof. by rewrite Nat2Z.inj_succ, <-Z.add_1_r, Z2Qc_inj_add, Z2Qc_inj_1. Qed.

Lemma Qc_of_nat_pos (n : nat) : (0 < n)%nat → 0 < Qc_of_Z (Z.of_nat n).
Proof. intros. rewrite <-Z2Qc_inj_0. apply (proj1 (Z2Qc_inj_lt 0 (Z.of_nat n))). lia. Qed.

Lemma foldl_plus_le l a c :
  (∀ x, x ∈ l → x ≤ c) → foldl Qcplus a l ≤ a + Qc_of_Z (Z.of_nat (length l)) * c.
Proof.
  revert a. induction l as [|x l IH]; intros a Hl.
  - cbn [foldl length]. change (Z.of_nat 0) with 0%Z.
    by rewrite Z2Qc_inj_0, Qcmult_0_l, Qcplus_0_r.
  - cbn [foldl length]. etrans; [apply IH; intros; apply Hl; by right|].
    rewrite Qc_of_nat_succ, Qcmult_plus_distr_l, Qcmult_1_l.
    rewrite <-Qcplus_assoc, (Qcplus_comm (_ * c) c), !Qcplus_assoc.
    apply Qcplus_le_mono_r, Qcplus_le_mono_l, Hl. by left.
Qed.

Lemma mean_le l c : l ≠ [] → (∀ x, x ∈ l → x ≤ c) → mean l ≤ c.
Proof.
  intros Hne Hl. unfold mean, py_sum.
  assert (0 < Qc_of_Z (Z.of_nat (length l))) as Hn.
  { apply Qc_of_nat_pos. destruct l; [done|simpl; lia]. }
  apply (Qcmult_le_mono_pos_r _ _ (Qc_of_Z (Z.of_nat (length l)))); [done|].
  unfold Qcdiv. rewrite <-Qcmult_assoc, Qcmult_inv_l, Qcmult_1_r
    by (intros Heq; rewrite Heq in Hn; by apply Qclt_not_eq in Hn).
  etrans; [by apply foldl_plus_le|]. by rewrite Qcplus_0_l, Qcmult_comm.
Qed.

(** ** The dictionaries after a run of pitches *)

Lemma speeds_of_cons name p ps :
  speeds_of name (p :: ps) =
    if decide (pitch_pitcher p = name) then pitch_speed p :: speeds_of name ps
    else speeds_of name ps.
Proof. unfold speeds_of. rewrite filter_cons. by case_decide. Qed.

Lemma fastballs_of_cons name p ps :
  fastballs_of name (p :: ps) =
    if decide (pitch_pitcher p = name ∧ pitch_fastball p = true)
    then pitch_speed p :: fastballs_of name ps
    else fastballs_of name ps.
Proof. unfold fastballs_of. rewrite filter_cons. by case_decide. Qed.

Lemma elem_of_speeds_of name ps s :
  s ∈ speeds_of name ps ↔ ∃ p, p ∈ ps ∧ pitch_pitcher p = name ∧ pitch_speed p = s.
Proof.
  unfold speeds_of. rewrite list_elem_of_fmap. split.
  - intros (p & -> & (Hn & Hin)%list_elem_of_filter). eauto.
  - intros (p & Hin & Hn & <-). exists p. split; [done|]. by apply list_elem_of_filter.
Qed.

Lemma elem_of_fastballs_of name ps s :
  s ∈ fastballs_of name ps ↔
  ∃ p, p ∈ ps ∧ pitch_pitcher p = name ∧ pitch_fastball p = true ∧ pitch_speed p = s.
Proof.
  unfold fastballs_of. rewrite list_elem_of_fmap. split.
  - intros (p & -> & ([Hn Hf] & Hin)%list_elem_of_filter). eauto.
  - intros (p & Hin & Hn & Hf & <-). exists p. split; [done|]. by apply list_elem_of_filter.
Qed.

Lemma fastballs_of_speeds_of name ps s : s ∈ fastballs_of name ps → s ∈ speeds_of name ps.
Proof.
  rewrite elem_of_fastballs_of, elem_of_speeds_of. intros (p & ? & ? & ? & ?). eauto.
Qed.

Lemma record_all_max ps st name :
  max_speeds (foldl record_pitch st ps) !! name =
    match speeds_of name ps with
    | [] => max_speeds st !! name
    | l => Some (foldl Qc_max (default 0 (max_speeds st !! name)) l)
    end.
Proof.
  revert st. induction ps as [|p ps IH]; intros st; [done|].
  cbn [foldl]. rewrite IH, speeds_of_cons. unfold record_pitch at 1 2. cbn [max_speeds].
  case_decide as Hp.
  - subst name. rewrite update_max_lookup. by destruct (speeds_of _ ps).
  - by rewrite update_max_lookup_ne.
Qed.

Lemma record_all_fast ps st name :
  fastball_speeds_dict (foldl record_pitch st ps) !! name =
    match fastballs_of name ps with
    | [] => fastball_speeds_dict st !! name
    | l => Some (default [] (fastball_speeds_dict st !! name) ++ l)
    end.
Proof.
  revert st. induction ps as [|p ps IH]; intros st; [done|].
  cbn [foldl]. rewrite IH, fastballs_of_cons. unfold record_pitch at 1 2.
  cbn [fastball_speeds_dict].
  destruct (pitch_fastball p) eqn:Hf; case_decide as Hp.
  - destruct Hp as [Hp _]. subst name. rewrite append_to_lookup.
    destruct (fastballs_of _ ps); simpl; [done|]. by rewrite <-app_assoc.
  - rewrite append_to_lookup_ne; [done|]. intros Heq. by apply Hp.
  - by destruct Hp.
  - done.
Qed.

Section Extraction_facts.

Variable py_repr : json → string.
Variable float_of_str : string → option Qc.

Abbreviation extract := (extract_max_and_avg_fastball_speeds_from_file py_repr float_of_str).
Abbreviation pitches := (pitches_of_file py_repr float_of_str).

(** What the extractor returns, in terms of the pitches it read. *)
Lemma extract_recorded file :
  (extract file).1 =
    (max_speeds (foldl record_pitch (Speeds ∅ ∅) (pitches file)),
     averages (fastball_speeds_dict (foldl record_pitch (Speeds ∅ ∅) (pitches file)))).
Proof.
  destruct file as [| | |game_data]; try done.
  unfold extract_max_and_avg_fastball_speeds_from_file, pitches_of_file.
  rewrite extract_speeds_read.
  by destruct (read_game _ _ game_data) as [[ps|]|e].
Qed.

Lemma extract_max_lookup file name :
  (extract file).1.1 !! name =
    match speeds_of name (pitches file) with
    | [] => None
    | l => Some (foldl Qc_max 0 l)
    end.
Proof.
  rewrite extract_recorded. cbn [fst]. rewrite record_all_max. cbn [max_speeds].
  by rewrite lookup_empty.
Qed.

Lemma extract_avg_lookup file name :
  (extract file).1.2 !! name = mean_of (fastballs_of name (pitches file)).
Proof.
  rewrite extract_recorded. cbn [snd]. rewrite averages_lookup, record_all_fast.
  cbn [fastball_speeds_dict]. rewrite lookup_empty.
  by destruct (fastballs_of name (pitches file)).
Qed.

Lemma extract_max_nonneg file name m :
  (extract file).1.1 !! name = Some m → 0 ≤ m.
Proof.
  rewrite extract_max_lookup. destruct (speeds_of _ _) as [|s l]; [done|].
  intros [= <-]. apply (foldl_max_ge_init (s :: l)).
Qed.

Lemma extract_avg_le_max file name a :
  (extract file).1.2 !! name = Some a →
  ∃ m, (extract file).1.1 !! name = Some m ∧ a ≤ m.
Proof.
  rewrite extract_avg_lookup, extract_max_lookup. unfold mean_of.
  case_bool_decide as Hne; [|done]. intros [= <-].
  destruct (fastballs_of name (pitches file)) as [|s l] eqn:Hf; [done|].
  assert (s ∈ speeds_of name (pitches file)) as Hs.
  { apply fastballs_of_speeds_of. rewrite Hf. by left. }
  destruct (speeds_of name (pitches file)) as [|s' l'] eqn:Hsp; [by apply elem_of_nil in Hs|].
  eexists. split; [done|]. apply mean_le; [done|].
  intros x Hx. apply foldl_max_ge_elem. rewrite <-Hsp.
  apply fastballs_of_speeds_of. by rewrite Hf.
Qed.

End Extraction_facts.

(** ** The aggregated dictionaries *)

Lemma aggregate_results_max games name :
  (aggregate_results games).1 !! name =
    match per_game_maxima name games.*1 with
    | [] => None
    | l => Some (foldl Qc_max 0 l)
    end.
Proof.
  unfold aggregate_results. cbn [fst]. rewrite aggregate_loop_max. cbn [fst].
  by rewrite lookup_empty.
Qed.

Lemma running_max_from name game_maxes overall :
  foldl (λ overall game_max,
           match game_max !! name with
           | Some v => Some (max_from overall v)
           | None => overall
           end) overall game_maxes =
    match per_game_maxima name game_maxes with
    | [] => overall
    | x :: l => Some (foldl Qc_max (max_from overall x) l)
    end.
Proof.
  revert overall. induction game_maxes as [|g gs IH]; intros overall; [done|].
  cbn [foldl]. rewrite IH, per_game_maxima_cons.
  destruct (g !! name) as [v|]; [|done].
  by destruct (per_game_maxima name gs).
Qed.

Lemma running_max_maxima name game_maxes :
  running_max name game_maxes =
    match per_game_maxima name game_maxes with
    | [] => None
    | x :: l => Some (foldl Qc_max x l)
    end.
Proof. unfold running_max. by rewrite running_max_from. Qed.

Lemma foldl_max_is_maximum x l : is_maximum (foldl Qc_max x l) (x :: l).
Proof.
  split.
  - destruct (foldl_max_attained l x) as [->|Hin]; [left|by right].
  - intros y [->|Hin]%elem_of_cons;
      [apply foldl_max_ge_init|by apply foldl_max_ge_elem].
Qed.

Lemma per_game_maxima_Permutation name (gs gs' : list (gmap pykey Qc)) :
  gs ≡ₚ gs' → per_game_maxima name gs ≡ₚ per_game_maxima name gs'.
Proof. intros Hp. unfold per_game_maxima. by rewrite Hp. Qed.

(** The aggregated maxima of games whose maxima are not negative. *)
Lemma aggregate_results_running_max games name :
  (∀ g v, g ∈ games → g.1 !! name = Some v → 0 ≤ v) →
  (aggregate_results games).1 !! name = running_max name games.*1.
Proof.
  intros Hpos. rewrite aggregate_results_max, running_max_maxima.
  destruct (per_game_maxima name games.*1) as [|x l] eqn:Hl; [done|].
  cbn [foldl]. rewrite Qc_max_comm, Qc_max_l; [done|].
  assert (x ∈ per_game_maxima name games.*1) as Hx by (rewrite Hl; left).
  apply list_elem_of_omap in Hx as (gm & Hgm & Hx).
  apply list_elem_of_fmap in Hgm as (g & -> & Hg). eauto.
Qed.

Lemma aggregate_results_max_Permutation games games' :
  games ≡ₚ games' → (aggregate_results games).1 = (aggregate_results games').1.
Proof.
  intros Hp. apply map_eq. intros name. rewrite !aggregate_results_max.
  assert (per_game_maxima name games.*1 ≡ₚ per_game_maxima name games'.*1) as Hm.
  { apply per_game_maxima_Permutation. by rewrite Hp. }
  destruct (per_game_maxima name games.*1) as [|x l],
    (per_game_maxima name games'.*1) as [|x' l'].
  - done.
  - by apply Permutation_nil_cons in Hm.
  - symmetry in Hm. by apply Permutation_nil_cons in Hm.
  - f_equal. by apply foldl_max_Permutation.
Qed.

(** Whenever every game's average is bounded by the game's maximum, the
    aggregated average is bounded by the aggregated maximum. *)
Lemma aggregate_results_avg_le_max games name a :
  (∀ g x, g ∈ games → g.2 !! name = Some x → ∃ m, g.1 !! name = Some m ∧ x ≤ m) →
  (aggregate_results games).2 !! name = Some a →
  ∃ m, (aggregate_results games).1 !! name = Some m ∧ a ≤ m.
Proof.
  intros Hgames. rewrite aggregate_results_avg, aggregate_results_max. unfold mean_of.
  case_bool_decide as Hne; [|done]. intros [= <-].
  assert (∀ x, x ∈ per_game_averages name games →
               ∃ m, m ∈ per_game_maxima name games.*1 ∧ x ≤ m) as Hbound.
  { intros x (g & Hg & Hx)%list_elem_of_omap.
    destruct (Hgames g x Hg Hx) as (m & Hm & Hle). exists m. split; [|done].
    apply list_elem_of_omap. exists g.1. split; [|done].
    apply list_elem_of_fmap. eauto. }
  destruct (per_game_averages name games) as [|x l] eqn:Hl; [done|].
  destruct (Hbound x) as (m0 & Hm0 & _); [left|].
  destruct (per_game_maxima name games.*1) as [|m1 ms] eqn:Hms;
    [by apply elem_of_nil in Hm0|].
  eexists. split; [done|]. apply mean_le; [done|].
  intros y Hy. destruct (Hbound y Hy) as (m & Hm & Hle).
  etrans; [exact Hle|]. by apply foldl_max_ge_elem.
Qed.

Lemma aggregate_results_max_nonneg games name m :
  (aggregate_results games).1 !! name = Some m → 0 ≤ m.
Proof.
  rewrite aggregate_results_max. destruct (per_game_maxima _ _) as [|x l]; [done|].
  intros [= <-]. apply (foldl_max_ge_init (x :: l)).
Qed.

Section Aggregation_claims.

Variable py_repr : json → string.
Variable float_of_str : string → option Qc.

Abbreviation extract := (extract_max_and_avg_fastball_speeds_from_file py_repr float_of_str).
Abbreviation aggregate := (aggregate_max_and_avg_speeds_from_directory py_repr float_of_str).
Abbreviation results := (game_results py_repr float_of_str).

Lemma elem_of_game_results g files :
  g ∈ results files ↔ ∃ file, file ∈ files ∧ g = (extract file).1.
Proof.
  unfold game_results. rewrite list_elem_of_fmap.
  split; intros (file & ? & ?); eauto.
Qed.

Lemma game_results_Permutation files files' :
  files ≡ₚ files' → results files ≡ₚ results files'.
Proof. intros Hp. unfold game_results. by rewrite Hp. Qed.

Lemma aggregate_max_maxima files name :
  (aggregate files).1 !! name = running_max name (results files).*1.
Proof.
  apply aggregate_results_running_max.
  intros g v (file & _ & ->)%elem_of_game_results. apply extract_max_nonneg.
Qed.

(** The aggregated maximum of the directory scripts is the running
    maximum [max(overall_max.get(name, -inf), game_max[name])] folded
    over the games' maximum maps: the greatest of the pitcher's
    per-game maxima, absent exactly when no game has the pitcher.  The
    aggregated maximum map does not depend on the order in which the
    games are merged. *)
Lemma directory_max_is_running_max (files : list game_file) (name : pykey) :
  (aggregate files).1 !! name = running_max name (results files).*1 ∧
  (∀ m, (aggregate files).1 !! name = Some m →
        is_maximum m (per_game_maxima name (results files).*1)) ∧
  ((aggregate files).1 !! name = None ↔ per_game_maxima name (results files).*1 = []) ∧
  (∀ files', files ≡ₚ files' → (aggregate files').1 = (aggregate files).1).
Proof.
  split_and!.
  - apply aggregate_max_maxima.
  - intros m. rewrite aggregate_max_maxima, running_max_maxima.
    destruct (per_game_maxima _ _) as [|x l]; [done|].
    intros [= <-]. apply foldl_max_is_maximum.
  - rewrite aggregate_max_maxima, running_max_maxima.
    by destruct (per_game_maxima _ _).
  - intros files' Hp. symmetry.
    by apply aggregate_results_max_Permutation, game_results_Permutation.
Qed.

(** C9, amended.  A pitcher with an aggregated average fastball speed
    has an aggregated maximum speed, and no aggregated maximum is
    negative.  In exact arithmetic the average is at most the maximum;
    the binary64 mean the loops compute can round above it. *)
Theorem aggregated_avg_below_max_and_max_nonneg (files : list game_file) (name : pykey) :
  (∀ a, (aggregate files).2 !! name = Some a →
        ∃ m, (aggregate files).1 !! name = Some m ∧ a ≤ m) ∧
  (∀ m, (aggregate files).1 !! name = Some m → 0 ≤ m).
Proof.
  split.
  - intros a. apply aggregate_results_avg_le_max.
    intros g x (file & _ & ->)%elem_of_game_results. apply extract_avg_le_max.
  - intros m. apply aggregate_results_max_nonneg.
Qed.

End Aggregation_claims.

Lemma aggregated_avg_below_max_and_max_nonneg_witness :
  (∃ m, (aggregate_max_and_avg_speeds_from_directory no_repr no_float [game_A; game_B]).1
          !! KStr "X" = Some m ∧ Q2Qc (189 # 2) ≤ m) ∧
  0 ≤ Qc_of_Z 99.
Proof.
  pose proof (aggregated_avg_below_max_and_max_nonneg no_repr no_float [game_A; game_B]
                (KStr "X")) as [Havg Hmax].
  split.
  - apply Havg. by_computation.
  - apply Hmax. by_computation.
Defined.

(** ** Records without a play list *)

Lemma find_all_plays_lacks game_data :
  lacks ["liveData"; "allPlays"] game_data →
  lacks ["liveData"; "plays"; "allPlays"] game_data →
  find_all_plays game_data = Ok JNull ∨ ∃ e, find_all_plays game_data = Raise e.
Proof.
  unfold lacks, find_all_plays. intros H1 H2.
  destruct game_data as [| | | | | |fields]; try (right; by eexists).
  cbn [py_get] in *. rewrite !bind_Ok. cbn [json_path] in H1, H2.
  destruct (dict_lookup "liveData" fields) as [live|]; cbn in H1, H2 |- *; [|by left].
  destruct live as [| | | | | |live]; try (right; by eexists).
  cbn in H1, H2 |- *.
  assert (default JNull (dict_lookup "allPlays" live) = JNull) as ->.
  { destruct (dict_lookup "allPlays" live) as [x|]; cbn in *; [by apply H1|done]. }
  cbn. destruct (dict_lookup "plays" live) as [plays|]; cbn in H2 |- *; [|by left].
  destruct plays as [| | | | | |plays]; try (right; by eexists).
  cbn in H2 |- *. left. f_equal.
  destruct (dict_lookup "allPlays" plays) as [x|]; cbn in *; [by apply H2|done].
Qed.

Section Missing_play_list.

Variable py_repr : json → string.
Variable float_of_str : string → option Qc.

(** C3.  A file that is not valid JSON, and a decoded record with no
    play list under [liveData.allPlays] nor under
    [liveData.plays.allPlays], make each extractor return empty
    dictionaries and print one warning line; no exception leaves the
    extractor. *)
Theorem no_play_list_gives_empty_maps (game_data : json) :
  lacks ["liveData"; "allPlays"] game_data →
  lacks ["liveData"; "plays"; "allPlays"] game_data →
  extract_max_and_avg_fastball_speeds_from_file py_repr float_of_str NotJson
    = ((∅, ∅), [WarnNotJson]) ∧
  extract_max_speeds_from_file py_repr float_of_str NotJson = (∅, [WarnNotJson]) ∧
  (∃ w, extract_max_and_avg_fastball_speeds_from_file py_repr float_of_str
          (Decoded game_data) = ((∅, ∅), [w]) ∧
        (w = WarnNoAllPlays ∨ w = WarnUnexpected)) ∧
  (∃ w, extract_max_speeds_from_file py_repr float_of_str (Decoded game_data) = (∅, [w]) ∧
        (w = WarnNoAllPlays ∨ w = WarnUnexpected)).
Proof.
  intros H1 H2. split_and!; [done..| |];
    cbn [extract_max_and_avg_fastball_speeds_from_file extract_max_speeds_from_file];
    unfold extract_speeds, extract_max;
    destruct (find_all_plays_lacks _ H1 H2) as [-> | [e ->]];
    rewrite ?bind_Ok, ?bind_Raise; cbn [is_None]; eauto.
Qed.

End Missing_play_list.

Lemma no_play_list_gives_empty_maps_witness :
  ∃ w, extract_max_and_avg_fastball_speeds_from_file no_repr no_float
         (Decoded (JObj [("liveData", JObj [("plays", JObj [])])])) = ((∅, ∅), [w]) ∧
       (w = WarnNoAllPlays ∨ w = WarnUnexpected).
Proof.
  refine (proj1 (proj2 (proj2 (no_play_list_gives_empty_maps no_repr no_float _ _ _))));
    intros x Hx; vm_compute in Hx; discriminate.
Defined.

(** ** The two worked games *)

(** C6.  Game A, in which X throws 95 and 97, both FF, and game B, in
    which X throws 93 as FF and 99 as CU, give X the per-game averages
    96 and 93; aggregated, X has maximum speed 99 and average fastball
    speed 94.5, the mean of 96 and 93.  The same numbers come out of
    the binary64 arithmetic. *)
Theorem two_games_end_to_end (py_repr : json → string) (float_of_str : string → option Qc) :
  (extract_max_and_avg_fastball_speeds_from_file py_repr float_of_str game_A).1.2
    !! KStr "X" = Some (Qc_of_Z 96) ∧
  (extract_max_and_avg_fastball_speeds_from_file py_repr float_of_str game_B).1.2
    !! KStr "X" = Some (Qc_of_Z 93) ∧
  (aggregate_max_and_avg_speeds_from_directory py_repr float_of_str [game_A; game_B]).1
    !! KStr "X" = Some (Qc_of_Z 99) ∧
  (aggregate_max_and_avg_speeds_from_directory py_repr float_of_str [game_A; game_B]).2
    !! KStr "X" = Some (Q2Qc (945 # 10)) ∧
  mean [Qc_of_Z 96; Qc_of_Z 93] = Q2Qc (945 # 10) ∧
  Binary64.aggregated_max [[95%float; 97%float]; [93%float; 99%float]] = 99%float ∧
  Binary64.aggregated_avg Binary64.sum_plain [[95%float; 97%float]; [93%float]]
    = 94.5%float ∧
  Binary64.aggregated_avg Binary64.sum_compensated [[95%float; 97%float]; [93%float]]
    = 94.5%float.
Proof. split_and!; first [by_computation | by vm_compute]. Qed.

(** ** Sorting and saving *)

Section sorted_desc.
Context {A : Type} (key : A → Qc).

Lemma insert_desc_Permutation x l : insert_desc key x l ≡ₚ x :: l.
Proof.
  induction l as [|y l IH]; [done|]. simpl. case_decide; [|done].
  by rewrite IH, perm_swap.
Qed.

Lemma sorted_desc_Permutation l : sorted_desc key l ≡ₚ l.
Proof.
  induction l as [|x l IH]; [done|]. unfold sorted_desc in *. simpl.
  by rewrite insert_desc_Permutation, IH.
Qed.

Lemma insert_desc_sorted x l :
  StronglySorted (key_ge key) l → StronglySorted (key_ge key) (insert_desc key x l).
Proof.
  induction 1 as [|y l Hs IH Hy]; simpl.
  - repeat constructor.
  - case_decide as Hlt.
    + constructor; [done|]. rewrite insert_desc_Permutation.
      constructor; [by apply Qclt_le_weak|done].
    + apply Qcnot_lt_le in Hlt. constructor; [by constructor|].
      constructor; [done|].
      eapply Forall_impl; [exact Hy|]. unfold key_ge. intros z Hz. by etrans.
Qed.

Lemma sorted_desc_sorted l : StronglySorted (key_ge key) (sorted_desc key l).
Proof.
  induction l as [|x l IH]; [constructor|]. by apply insert_desc_sorted.
Qed.

Lemma sorted_desc_lookup l i j a b :
  (i < j)%nat → sorted_desc key l !! i = Some a → sorted_desc key l !! j = Some b →
  key b ≤ key a.
Proof.
  generalize (sorted_desc_sorted l). generalize (sorted_desc key l). clear l.
  intros l Hs. revert i j. induction Hs as [|x l Hs IH Hx]; intros i j Hij Hi Hj; [done|].
  destruct j as [|j]; [lia|]. destruct i as [|i]; simpl in *.
  - injection Hi as ->. eapply Forall_forall in Hx; [exact Hx|].
    by eapply list_elem_of_lookup_2.
  - apply (IH i j); [lia|done..].
Qed.
End sorted_desc.

(** C8.  In the saved combined mapping an entry that comes before
    another has a maximum speed at least as large, and the saved
    entries are those of the combined dictionary; the max-only script
    orders its saved mapping the same way. *)
Theorem saved_mapping_sorted_by_max_speed_desc
    (all_pitchers : list pykey) (max_speeds_dict avg_speeds_dict : gmap pykey Qc)
    (items : list (pykey * Qc)) (i j : nat) :
  (i < j)%nat →
  (∀ earlier later,
     save_combined_speeds_to_json all_pitchers max_speeds_dict avg_speeds_dict !! i
       = Some earlier →
     save_combined_speeds_to_json all_pitchers max_speeds_dict avg_speeds_dict !! j
       = Some later →
     max_speed later.2 ≤ max_speed earlier.2) ∧
  save_combined_speeds_to_json all_pitchers max_speeds_dict avg_speeds_dict
    ≡ₚ combined_dict all_pitchers max_speeds_dict avg_speeds_dict ∧
  (∀ earlier later,
     sorted_max_speeds items !! i = Some earlier →
     sorted_max_speeds items !! j = Some later →
     later.2 ≤ earlier.2) ∧
  sorted_max_speeds items ≡ₚ items.
Proof.
  intros Hij. split_and!.
  - intros earlier later. by apply (sorted_desc_lookup (λ item, max_speed item.2)).
  - apply sorted_desc_Permutation.
  - intros earlier later. by apply (sorted_desc_lookup (λ item : pykey * Qc, item.2)).
  - apply sorted_desc_Permutation.
Qed.

Lemma saved_mapping_sorted_by_max_speed_desc_witness :
  max_speed (PitcherRecord (Qc_of_Z 95) 0) ≤ max_speed (PitcherRecord (Qc_of_Z 99) (Qc_of_Z 94)).
Proof.
  refine (proj1 (saved_mapping_sorted_by_max_speed_desc
                   [KStr "Y"; KStr "X"]
                   (<[KStr "X" := Qc_of_Z 99]> {[KStr "Y" := Qc_of_Z 95]})
                   {[KStr "X" := Qc_of_Z 94]} [] 0 1 _)
                (KStr "X", PitcherRecord (Qc_of_Z 99) (Qc_of_Z 94))
                (KStr "Y", PitcherRecord (Qc_of_Z 95) 0) _ _).
  - lia.
  - by_computation.
  - by_computation.
Defined.

(** C10.  The keys of the saved combined mapping are exactly the names
    that are a key of the maximum-speed map or of the average map, each
    once; every entry holds the two maps' values for its name, with 0.0
    in the place of a value the map does not have. *)
Theorem saved_mapping_keys_and_defaults
    (all_pitchers : list pykey) (max_speeds_dict avg_speeds_dict : gmap pykey Qc) :
  all_pitchers ≡ₚ elements (all_pitchers_set max_speeds_dict avg_speeds_dict) →
  (∀ name, name ∈ (save_combined_speeds_to_json all_pitchers max_speeds_dict avg_speeds_dict).*1
           ↔ name ∈ dom max_speeds_dict ∨ name ∈ dom avg_speeds_dict) ∧
  NoDup (save_combined_speeds_to_json all_pitchers max_speeds_dict avg_speeds_dict).*1 ∧
  (∀ name r,
     (name, r) ∈ save_combined_speeds_to_json all_pitchers max_speeds_dict avg_speeds_dict →
     max_speed r = default 0 (max_speeds_dict !! name) ∧
     avg_fastball_speed r = default 0 (avg_speeds_dict !! name) ∧
     (max_speeds_dict !! name = None → max_speed r = 0) ∧
     (avg_speeds_dict !! name = None → avg_fastball_speed r = 0)).
Proof.
  intros Hperm.
  assert ((save_combined_speeds_to_json all_pitchers max_speeds_dict avg_speeds_dict).*1
          ≡ₚ all_pitchers) as Hkeys.
  { unfold save_combined_speeds_to_json. rewrite sorted_desc_Permutation.
    unfold combined_dict. rewrite <-list_fmap_compose. by rewrite list_fmap_id. }
  split_and!.
  - intros name. rewrite Hkeys, Hperm, elem_of_elements.
    unfold all_pitchers_set. by rewrite elem_of_union.
  - rewrite Hkeys, Hperm. apply NoDup_elements.
  - intros name r Hin. unfold save_combined_speeds_to_json in Hin.
    rewrite sorted_desc_Permutation in Hin. unfold combined_dict in Hin.
    apply list_elem_of_fmap in Hin as (name' & [= -> ->] & _). cbn.
    split_and!; [done|done|by intros ->|by intros ->].
Qed.

Lemma saved_mapping_keys_and_defaults_witness :
  NoDup (save_combined_speeds_to_json [KStr "X"; KStr "Y"]
           {[KStr "Y" := Qc_of_Z 95]} {[KStr "X" := Qc_of_Z 94]}).*1.
Proof.
  refine (proj1 (proj2 (saved_mapping_keys_and_defaults _ _ _ _))).
  apply (bool_decide_unpack _). vm_compute. exact I.
Defined.

(** ** Pitchers without fastballs *)

Lemma per_game_averages_app name games1 games2 :
  per_game_averages name (games1 ++ games2) =
    per_game_averages name games1 ++ per_game_averages name games2.
Proof. unfold per_game_averages. apply omap_app. Qed.

Section No_fastball.

Variable py_repr : json → string.
Variable float_of_str : string → option Qc.

(** C7.  A pitcher none of whose pitches in a game is a fastball is
    absent from that game's average map, and the game adds no term to
    the pitcher's list of per-game averages: the aggregated average is
    what it is without the game. *)
Theorem no_fastball_no_average_no_term
    (files1 files2 : list game_file) (file : game_file) (name : pykey) :
  (∀ p, p ∈ pitches_of_file py_repr float_of_str file →
        pitch_pitcher p = name → pitch_fastball p = false) →
  (extract_max_and_avg_fastball_speeds_from_file py_repr float_of_str file).1.2 !! name = None ∧
  per_game_averages name (game_results py_repr float_of_str (files1 ++ file :: files2)) =
    per_game_averages name (game_results py_repr float_of_str (files1 ++ files2)) ∧
  (aggregate_max_and_avg_speeds_from_directory py_repr float_of_str
     (files1 ++ file :: files2)).2 !! name =
  (aggregate_max_and_avg_speeds_from_directory py_repr float_of_str
     (files1 ++ files2)).2 !! name.
Proof.
  intros Hnone.
  assert ((extract_max_and_avg_fastball_speeds_from_file py_repr float_of_str file).1.2
            !! name = None) as Habsent.
  { rewrite extract_avg_lookup.
    destruct (fastballs_of name (pitches_of_file py_repr float_of_str file)) as [|s l] eqn:Hf;
      [done|].
    assert (s ∈ fastballs_of name (pitches_of_file py_repr float_of_str file)) as Hs
      by (rewrite Hf; left).
    apply elem_of_fastballs_of in Hs as (p & Hp & Hname & Hfast & _).
    rewrite (Hnone p Hp Hname) in Hfast. done. }
  assert (per_game_averages name (game_results py_repr float_of_str (files1 ++ file :: files2)) =
          per_game_averages name (game_results py_repr float_of_str (files1 ++ files2)))
    as Hsame.
  { unfold game_results. rewrite !fmap_app, fmap_cons, !per_game_averages_app.
    by rewrite per_game_averages_cons, Habsent. }
  split_and!; [done..|].
  unfold aggregate_max_and_avg_speeds_from_directory.
  by rewrite !aggregate_results_avg, Hsame.
Qed.

End No_fastball.

Lemma no_fastball_no_average_no_term_witness :
  (extract_max_and_avg_fastball_speeds_from_file no_repr no_float game_C).1.2
    !! KStr "Z" = None.
Proof.
  refine (proj1 (no_fastball_no_average_no_term no_repr no_float [game_A] [game_B] game_C
                   (KStr "Z") _)).
  intros p Hp Hname. vm_compute in Hp.
  repeat (apply elem_of_cons in Hp as [->|Hp];
          [first [reflexivity | by vm_compute in Hname]|]).
  by apply elem_of_nil in Hp.
Defined.

(** ** Events, rosters and names *)

Lemma dict_lookup_nonempty key fields v : dict_lookup key fields = Some v → fields ≠ [].
Proof. by destruct fields. Qed.

Lemma collect_Ok_read {A B : Type} (read : A → py (list B)) xs ys x :
  collect read xs = Ok ys → x ∈ xs → ∃ zs, read x = Ok zs ∧ ∀ b, b ∈ zs → b ∈ ys.
Proof.
  revert ys. induction xs as [|x' xs IH]; intros ys Hc Hin; [by apply elem_of_nil in Hin|].
  cbn [collect] in Hc.
  destruct (read x') as [zs|e] eqn:Hx'; rewrite ?bind_Ok, ?bind_Raise in Hc; [|done].
  destruct (collect read xs) as [ws|e] eqn:Hxs; rewrite ?bind_Ok, ?bind_Raise in Hc; [|done].
  injection Hc as <-. apply elem_of_cons in Hin as [->|Hin].
  - exists zs. split; [done|]. intros b Hb. apply elem_of_app. by left.
  - destruct (IH ws eq_refl Hin) as (zs' & Hr & Hsub). exists zs'. split; [done|].
    intros b Hb. apply elem_of_app. right. by apply Hsub.
Qed.

Lemma for_each_invariant {A S : Type} (P : S → Prop) (body : S → A → py S) xs st st' :
  (∀ st x st', P st → body st x = Ok st' → P st') →
  P st → for_each body st xs = Ok st' → P st'.
Proof.
  intros Hbody. revert st. induction xs as [|x xs IH]; intros st HP Hrun.
  - by injection Hrun as <-.
  - cbn [for_each] in Hrun.
    destruct (body st x) as [st1|e] eqn:Hx; rewrite ?bind_Ok, ?bind_Raise in Hrun; [|done].
    eapply IH; [|exact Hrun]. by eapply Hbody.
Qed.

Lemma to_key_truthy v k : to_key v = Ok k → py_truthy v = key_truthy k.
Proof.
  destruct v as [|b|n|q|s|items|fields]; intros [= <-]; cbn; try done.
  - destruct b; by_computation.
  - apply bool_decide_ext. rewrite <-Z2Qc_inj_0. by rewrite Z2Qc_inj_iff.
Qed.

Section Names.

Variable py_repr : json → string.
Variable float_of_str : string → option Qc.

Lemma add_player_truthy player_names entry player_names' :
  (∀ k v, player_names !! k = Some v → key_truthy k = true) →
  add_player player_names entry = Ok player_names' →
  ∀ k v, player_names' !! k = Some v → key_truthy k = true.
Proof.
  intros Hinv. unfold add_player.
  destruct (py_get entry.2 "person" (JObj [])) as [person_info|e];
    rewrite ?bind_Ok, ?bind_Raise; [|done].
  destruct (py_get person_info "id" JNull) as [player_id|e];
    rewrite ?bind_Ok, ?bind_Raise; [|done].
  destruct (py_get person_info "fullName" JNull) as [player_full_name|e];
    rewrite ?bind_Ok, ?bind_Raise; [|done].
  destruct (py_truthy player_id) eqn:Hid; cbn [andb]; [|intros [= <-]; exact Hinv].
  destruct (py_truthy player_full_name); [|intros [= <-]; exact Hinv].
  destruct (to_key player_id) as [k0|e] eqn:Hk0; rewrite ?bind_Ok, ?bind_Raise; [|done].
  intros [= <-] k v. destruct (decide (k0 = k)) as [<-|Hne].
  - intros _. by rewrite <-(to_key_truthy _ _ Hk0).
  - rewrite lookup_insert_ne by done. apply Hinv.
Qed.

(** Every identifier of the roster is truthy. *)
Lemma build_player_names_truthy players_data_raw player_names k v :
  build_player_names players_data_raw = Ok player_names →
  player_names !! k = Some v → key_truthy k = true.
Proof.
  unfold build_player_names. destruct (py_truthy players_data_raw).
  - destruct (py_items players_data_raw) as [entries|e];
      rewrite ?bind_Ok, ?bind_Raise; [|done].
    intros Hrun. revert k v.
    eapply (for_each_invariant
              (λ names : gmap pykey json, ∀ k v, names !! k = Some v → key_truthy k = true));
      [|by intros k v; rewrite lookup_empty|exact Hrun].
    intros st x st' Hst Hadd. by eapply add_player_truthy.
  - intros [= <-]. by rewrite lookup_empty.
Qed.

Lemma play_pitcher_matchup play pitcher :
  matchup_pitcher play = Some pitcher →
  play_pitcher py_repr play =
    Ok (default JNull (dict_lookup "id" pitcher),
        default (JStr ("Unknown_Pitcher_Id_" +:+
                       py_str py_repr (default JNull (dict_lookup "id" pitcher))))
                (dict_lookup "fullName" pitcher)).
Proof.
  unfold matchup_pitcher, play_pitcher, matchup_name.
  destruct play as [| | | | | |fields]; try done. cbn [py_get]. rewrite bind_Ok.
  destruct (default (JObj []) (dict_lookup "matchup" fields)) as [| | | | | |matchup];
    try done.
  cbn [py_get]. rewrite bind_Ok.
  destruct (default (JObj []) (dict_lookup "pitcher" matchup)) as [| | | | | |pitcher'];
    try done.
  by intros [= ->].
Qed.

(** The name the loop settles on is the one the resolution order
    gives, whenever the roster is one the extractor built. *)
Lemma final_pitcher_name_resolved players_data_raw player_names pitcher v :
  build_player_names players_data_raw = Ok player_names →
  final_pitcher_name player_names (default JNull (dict_lookup "id" pitcher))
    (default (JStr ("Unknown_Pitcher_Id_" +:+
                    py_str py_repr (default JNull (dict_lookup "id" pitcher))))
             (dict_lookup "fullName" pitcher)) = Ok v →
  v = resolved_name py_repr player_names pitcher.
Proof.
  intros Hroster. unfold final_pitcher_name, resolved_name, roster_name.
  destruct (dict_lookup "id" pitcher) as [pitcher_id|]; cbn [default from_option id py_truthy].
  - destruct (py_truthy pitcher_id) eqn:Htruthy.
    + destruct (to_key pitcher_id) as [k|e]; rewrite ?bind_Ok, ?bind_Raise; [|done].
      destruct (player_names !! k) as [full_name|]; intros [= <-]; [done|].
      by destruct (dict_lookup "fullName" pitcher).
    + intros [= <-]. destruct (to_key pitcher_id) as [k|e] eqn:Hk.
      * destruct (player_names !! k) as [full_name|] eqn:Hfull.
        -- apply (build_player_names_truthy _ _ _ _ Hroster) in Hfull.
           rewrite <-(to_key_truthy _ _ Hk) in Hfull. congruence.
        -- by destruct (dict_lookup "fullName" pitcher).
      * by destruct (dict_lookup "fullName" pitcher).
  - intros [= <-]. by destruct (dict_lookup "fullName" pitcher).
Qed.

End Names.

Section Events.

Variable py_repr : json → string.
Variable float_of_str : string → option Qc.

Lemma has_start_speed_carried fields pitch_data start_speed :
  dict_lookup "pitchData" fields = Some (JObj pitch_data) →
  dict_lookup "startSpeed" pitch_data = Some start_speed →
  has_start_speed (JObj pitch_data) = Ok true.
Proof.
  intros _ Hs. unfold has_start_speed. cbn [py_truthy py_in].
  rewrite bool_decide_eq_true_2 by by eapply dict_lookup_nonempty.
  by rewrite Hs.
Qed.

(** An event that carries a speed and a type code is read as one pitch. *)
Lemma read_event_carried player_names pitcher_id name_from_matchup event s c :
  carried_speed float_of_str event = Some s →
  carried_code event = Some c →
  read_event float_of_str player_names pitcher_id name_from_matchup event =
    final_name ← final_pitcher_name player_names pitcher_id name_from_matchup;
    name ← to_key final_name;
    fast ← is_fastball c;
    Ok [Pitch name s fast].
Proof.
  unfold carried_speed, carried_code, read_event.
  destruct event as [| | | | | |fields]; try done.
  destruct (dict_lookup "pitchData" fields) as [[| | | | | |pitch_data]|] eqn:Hpd; try done.
  destruct (dict_lookup "startSpeed" pitch_data) as [start_speed|] eqn:Hss; [|done].
  destruct (py_float float_of_str start_speed) as [speed|e] eqn:Hfl; [|done].
  intros [= ->].
  destruct (dict_lookup "details" fields) as [[| | | | | |details]|] eqn:Hd; try done.
  destruct (dict_lookup "type" details) as [[| | | | | |type]|] eqn:Hty; try done.
  intros [= <-].
  assert (py_in "type" (JObj details) = Ok true) as Hin.
  { cbn [py_in]. rewrite Hty. by rewrite bool_decide_eq_true_2. }
  assert (py_truthy (JObj details) = true) as Htruthy.
  { cbn [py_truthy]. apply bool_decide_eq_true_2. by eapply dict_lookup_nonempty. }
  cbn [py_get]. rewrite Hpd, Hd. cbn [default from_option id]. rewrite !bind_Ok.
  unfold has_speed_and_type.
  rewrite (has_start_speed_carried _ _ _ Hpd Hss), bind_Ok, Htruthy, Hin, bind_Ok.
  cbn [py_index]. rewrite Hss, bind_Ok, Hfl, bind_Ok, Hty, bind_Ok.
  cbn [py_get]. by rewrite bind_Ok.
Qed.

Lemma read_event_max_carried player_names pitcher_id name_from_matchup event s :
  carried_speed float_of_str event = Some s →
  read_event_max float_of_str player_names pitcher_id name_from_matchup event =
    final_name ← final_pitcher_name player_names pitcher_id name_from_matchup;
    name ← to_key final_name;
    Ok [(name, s)].
Proof.
  unfold carried_speed, read_event_max.
  destruct event as [| | | | | |fields]; try done.
  destruct (dict_lookup "pitchData" fields) as [[| | | | | |pitch_data]|] eqn:Hpd; try done.
  destruct (dict_lookup "startSpeed" pitch_data) as [start_speed|] eqn:Hss; [|done].
  destruct (py_float float_of_str start_speed) as [speed|e] eqn:Hfl; [|done].
  intros [= ->].
  cbn [py_get]. rewrite Hpd. cbn [default from_option id]. rewrite !bind_Ok.
  rewrite (has_start_speed_carried _ _ _ Hpd Hss), bind_Ok.
  cbn [py_index]. by rewrite Hss, bind_Ok, Hfl, bind_Ok.
Qed.

Lemma process_event_max_read player_names pitcher_id name_from_matchup d event :
  process_event_max float_of_str player_names pitcher_id name_from_matchup d event =
    rs ← read_event_max float_of_str player_names pitcher_id name_from_matchup event;
    Ok (foldl record_max d rs).
Proof.
  unfold process_event_max, read_event_max.
  repeat (step_bind; [|done]).
  match goal with b : bool |- _ => destruct b end; [|done].
  by repeat (step_bind; [|done]).
Qed.

Lemma process_play_max_read player_names d play :
  process_play_max py_repr float_of_str player_names d play =
    rs ← read_play_max py_repr float_of_str player_names play;
    Ok (foldl record_max d rs).
Proof.
  unfold process_play_max, read_play_max.
  step_bind; [|done].
  match goal with b : bool |- _ => destruct b end; [|done].
  step_bind; [|done].
  match goal with p : (json * json)%type |- _ => destruct p end.
  step_bind; [|done].
  apply for_each_collect. intros. apply process_event_max_read.
Qed.

Lemma play_events_has_events play events :
  play_events play = Ok events → py_in "playEvents" play = Ok true.
Proof.
  unfold play_events, py_index.
  destruct play as [| | | | | |fields]; try done. cbn [py_in].
  destruct (dict_lookup "playEvents" fields); [|done].
  intros _. by rewrite bool_decide_eq_true_2.
Qed.

End Events.

(** The maximum map after a run of readings. *)
Lemma record_max_lookup_mono rs d name m0 :
  d !! name = Some m0 → ∃ m, foldl record_max d rs !! name = Some m ∧ m0 ≤ m.
Proof.
  revert d m0. induction rs as [|[k s] rs IH]; intros d m0 Hd; [by exists m0|].
  cbn [foldl]. unfold record_max at 2. cbn [fst snd].
  destruct (decide (k = name)) as [->|Hne].
  - destruct (IH (update_max name s d) _ (update_max_lookup name s d)) as (m & Hm & Hle).
    exists m. split; [done|]. etrans; [|exact Hle]. rewrite Hd. apply Qc_max_ge_l.
  - apply IH. by rewrite update_max_lookup_ne.
Qed.

Lemma record_max_lookup_ge rs d name s :
  (name, s) ∈ rs → ∃ m, foldl record_max d rs !! name = Some m ∧ s ≤ m.
Proof.
  revert d. induction rs as [|[k s'] rs IH]; intros d Hin; [by apply elem_of_nil in Hin|].
  cbn [foldl]. apply elem_of_cons in Hin as [[= <- <-]|Hin]; [|by apply IH].
  unfold record_max at 2. cbn [fst snd].
  destruct (record_max_lookup_mono rs _ name _ (update_max_lookup name s d))
    as (m & Hm & Hle).
  exists m. split; [done|]. etrans; [|exact Hle]. apply Qc_max_ge_r.
Qed.

(** ** Pitches that are not fastballs *)

Lemma fastballs_of_fastball_pitches name ps :
  fastballs_of name ps = speeds_of name (fastball_pitches ps).
Proof.
  unfold fastball_pitches. induction ps as [|p ps IH]; [done|].
  rewrite fastballs_of_cons, filter_cons, IH.
  destruct (decide (pitch_fastball p = true)) as [Hf|Hf].
  - rewrite speeds_of_cons. repeat case_decide; try done; tauto.
  - case_decide; [tauto|done].
Qed.

Section Non_fastball.

Variable py_repr : json → string.
Variable float_of_str : string → option Qc.

(** In the loop body, an event that carries a speed and a type code
    outside the fastball set raises the pitcher's maximum speed to the
    event's speed when that is greater, leaves every other maximum
    alone, and leaves the fastball-speed lists as they were.  The
    average map of a game is determined by the game's fastballs
    alone. *)
Lemma process_event_non_fastball
    (player_names : gmap pykey json) (pitcher_id name_from_matchup : json)
    (st : speeds) (event : json) (s : Qc) (c final_name : json) (code name : pykey) :
  carried_speed float_of_str event = Some s →
  carried_code event = Some c →
  to_key c = Ok code →
  code ∉ FASTBALL_CODES →
  final_pitcher_name player_names pitcher_id name_from_matchup = Ok final_name →
  to_key final_name = Ok name →
  (∃ st',
     process_event float_of_str player_names pitcher_id name_from_matchup st event = Ok st' ∧
     max_speeds st' !! name = Some (Qc_max (default 0 (max_speeds st !! name)) s) ∧
     (∀ other, other ≠ name → max_speeds st' !! other = max_speeds st !! other) ∧
     fastball_speeds_dict st' = fastball_speeds_dict st ∧
     averages (fastball_speeds_dict st') = averages (fastball_speeds_dict st)) ∧
  (∀ file file',
     fastball_pitches (pitches_of_file py_repr float_of_str file) =
     fastball_pitches (pitches_of_file py_repr float_of_str file') →
     (extract_max_and_avg_fastball_speeds_from_file py_repr float_of_str file).1.2 =
     (extract_max_and_avg_fastball_speeds_from_file py_repr float_of_str file').1.2).
Proof.
  intros Hs Hc Hcode Hnot Hfinal Hname. split.
  - rewrite process_event_read, (read_event_carried _ _ _ _ _ _ _ Hs Hc).
    rewrite Hfinal, bind_Ok, Hname, bind_Ok. unfold is_fastball.
    rewrite Hcode, bind_Ok, bool_decide_eq_false_2, !bind_Ok by done.
    eexists. split; [done|]. cbn. split_and!; [|intros other Hne|done..].
    + apply update_max_lookup.
    + by apply update_max_lookup_ne.
  - intros file file' Hsame. apply map_eq. intros k.
    by rewrite !extract_avg_lookup, !fastballs_of_fastball_pitches, Hsame.
Qed.

End Non_fastball.

(** ** The name a pitch is recorded under *)

Section Recording.

Variable py_repr : json → string.
Variable float_of_str : string → option Qc.

Lemma process_play_recorded player_names st play st' :
  process_play py_repr float_of_str player_names st play = Ok st' →
  ∃ ps, read_play py_repr float_of_str player_names play = Ok ps ∧
        st' = foldl record_pitch st ps.
Proof.
  rewrite process_play_read.
  destruct (read_play _ _ _ _) as [ps|e]; rewrite ?bind_Ok, ?bind_Raise; [|done].
  intros [= <-]. by exists ps.
Qed.

Lemma process_play_max_recorded player_names d play d' :
  process_play_max py_repr float_of_str player_names d play = Ok d' →
  ∃ rs, read_play_max py_repr float_of_str player_names play = Ok rs ∧
        d' = foldl record_max d rs.
Proof.
  rewrite process_play_max_read.
  destruct (read_play_max _ _ _ _) as [rs|e]; rewrite ?bind_Ok, ?bind_Raise; [|done].
  intros [= <-]. by exists rs.
Qed.

(** In the loop over the plays, a pitch event with a speed is recorded
    under the name the resolution order gives for the roster in use:
    after the play the maximum recorded under that name is at least the
    event's speed, in either extractor, and a fastball's speed is in
    the list kept under that name. *)
Lemma process_play_records_resolved
    (players_data_raw : json) (player_names : gmap pykey json)
    (play : json) (pitcher : list (string * json)) (events : list json)
    (event : json) (s : Qc) :
  build_player_names players_data_raw = Ok player_names →
  matchup_pitcher play = Some pitcher →
  play_events play = Ok events →
  event ∈ events →
  carried_speed float_of_str event = Some s →
  (∀ c st st',
     carried_code event = Some c →
     process_play py_repr float_of_str player_names st play = Ok st' →
     ∃ name m,
       to_key (resolved_name py_repr player_names pitcher) = Ok name ∧
       max_speeds st' !! name = Some m ∧ s ≤ m ∧
       (is_fastball c = Ok true →
        ∃ l, fastball_speeds_dict st' !! name = Some l ∧ s ∈ l)) ∧
  (∀ d d',
     process_play_max py_repr float_of_str player_names d play = Ok d' →
     ∃ name m,
       to_key (resolved_name py_repr player_names pitcher) = Ok name ∧
       d' !! name = Some m ∧ s ≤ m) ∧
  (∀ pitcher_id k full_name,
     dict_lookup "id" pitcher = Some pitcher_id →
     to_key pitcher_id = Ok k →
     player_names !! k = Some full_name →
     resolved_name py_repr player_names pitcher = full_name) ∧
  (roster_name player_names pitcher = None →
   resolved_name py_repr player_names pitcher =
     default (JStr ("Unknown_Pitcher_Id_" +:+
                    py_str py_repr (default JNull (dict_lookup "id" pitcher))))
             (dict_lookup "fullName" pitcher)).
Proof.
  intros Hroster Hpitcher Hevents Hevent Hs.
  pose proof (play_events_has_events _ _ Hevents) as Hin.
  pose proof (play_pitcher_matchup py_repr _ _ Hpitcher) as Hpp.
  split_and!.
  - intros c st st' Hc Hrun.
    apply process_play_recorded in Hrun as (ps & Hread & ->).
    unfold read_play in Hread.
    rewrite Hin, bind_Ok, Hpp, bind_Ok, Hevents, bind_Ok in Hread.
    destruct (collect_Ok_read _ _ _ _ Hread Hevent) as (zs & Hzs & Hsub).
    rewrite (read_event_carried _ _ _ _ _ _ _ Hs Hc) in Hzs.
    destruct (final_pitcher_name _ _ _) as [v|e] eqn:Hv;
      rewrite ?bind_Ok, ?bind_Raise in Hzs; [|done].
    apply (final_pitcher_name_resolved _ _ _ _ _ Hroster) in Hv as ->.
    destruct (to_key _) as [name|e] eqn:Hname; rewrite ?bind_Ok, ?bind_Raise in Hzs; [|done].
    destruct (is_fastball c) as [fast|e] eqn:Hfast;
      rewrite ?bind_Ok, ?bind_Raise in Hzs; [|done].
    injection Hzs as <-.
    assert (Pitch name s fast ∈ ps) as Hp by (apply Hsub; left).
    assert (s ∈ speeds_of name ps) as Hsp by (apply elem_of_speeds_of; eauto).
    exists name. rewrite record_all_max.
    destruct (speeds_of name ps) as [|s0 l0] eqn:Hl; [by apply elem_of_nil in Hsp|].
    eexists. split_and!; [done|done|by apply foldl_max_ge_elem|].
    intros [= ->]. rewrite record_all_fast.
    assert (s ∈ fastballs_of name ps) as Hfb by (apply elem_of_fastballs_of; eauto).
    destruct (fastballs_of name ps) as [|s1 l1] eqn:Hl1; [by apply elem_of_nil in Hfb|].
    eexists. split; [done|]. apply elem_of_app. by right.
  - intros d d' Hrun.
    apply process_play_max_recorded in Hrun as (rs & Hread & ->).
    unfold read_play_max in Hread.
    rewrite Hin, bind_Ok, Hpp, bind_Ok, Hevents, bind_Ok in Hread.
    destruct (collect_Ok_read _ _ _ _ Hread Hevent) as (zs & Hzs & Hsub).
    rewrite (read_event_max_carried _ _ _ _ _ _ Hs) in Hzs.
    destruct (final_pitcher_name _ _ _) as [v|e] eqn:Hv;
      rewrite ?bind_Ok, ?bind_Raise in Hzs; [|done].
    apply (final_pitcher_name_resolved _ _ _ _ _ Hroster) in Hv as ->.
    destruct (to_key _) as [name|e] eqn:Hname; rewrite ?bind_Ok, ?bind_Raise in Hzs; [|done].
    injection Hzs as <-.
    exists name. destruct (record_max_lookup_ge rs d name s) as (m & Hm & Hle);
      [apply Hsub; left|]. eauto.
  - intros pitcher_id k full_name Hid Hk Hfull.
    unfold resolved_name, roster_name. by rewrite Hid, Hk, Hfull.
  - intros Hnone. unfold resolved_name. rewrite Hnone.
    by destruct (dict_lookup "fullName" pitcher).
Qed.

End Recording.

(** ** The merge over the games of one date

    [get_all_pitchers_max_speeds_for_date] keeps a plain dictionary and
    compares with [d.get(name, 0)]: it agrees with the running maximum
    on every pitcher whose maximum is positive, and has no entry for a
    pitcher whose maximum is 0.0. *)

Lemma update_max_plain_lookup name speed (d : gmap pykey Qc) :
  update_max_plain name speed d !! name =
    if decide (default 0 (d !! name) < speed) then Some speed else d !! name.
Proof. unfold update_max_plain. case_decide; [by rewrite lookup_insert_eq|done]. Qed.

Lemma update_max_plain_lookup_ne name name' speed (d : gmap pykey Qc) :
  name ≠ name' → update_max_plain name speed d !! name' = d !! name'.
Proof.
  intros. unfold update_max_plain. case_decide; [by rewrite lookup_insert_ne|done].
Qed.

Lemma merge_max_plain_lookup (all_max game_max : gmap pykey Qc) name :
  merge_max_plain all_max game_max !! name =
    match game_max !! name with
    | Some speed => if decide (default 0 (all_max !! name) < speed) then Some speed
                    else all_max !! name
    | None => all_max !! name
    end.
Proof.
  unfold merge_max_plain.
  rewrite (for_items_lookup _ (λ _ speed o, if decide (default 0 o < speed) then Some speed
                                            else o)).
  - done.
  - intros. apply update_max_plain_lookup.
  - intros. by apply update_max_plain_lookup_ne.
Qed.

Lemma merge_plain_loop game_maxes (acc : gmap pykey Qc) name :
  (∀ m, acc !! name = Some m → 0 < m) →
  (∀ m, foldl merge_max_plain acc game_maxes !! name = Some m → 0 < m) ∧
  default 0 (foldl merge_max_plain acc game_maxes !! name) =
    foldl Qc_max (default 0 (acc !! name)) (per_game_maxima name game_maxes).
Proof.
  revert acc. induction game_maxes as [|g gs IH]; intros acc Hacc; [done|].
  cbn [foldl]. rewrite per_game_maxima_cons.
  assert (∀ m, merge_max_plain acc g !! name = Some m → 0 < m) as Hstep.
  { intros m. rewrite merge_max_plain_lookup. destruct (g !! name) as [v|]; [|apply Hacc].
    case_decide as Hlt; [|apply Hacc]. intros [= <-].
    eapply Qcle_lt_trans; [|exact Hlt].
    destruct (acc !! name) as [m0|] eqn:E; [|done]. apply Qclt_le_weak. by apply Hacc. }
  destruct (IH _ Hstep) as [Hpos Hval]. split; [done|]. rewrite Hval.
  rewrite merge_max_plain_lookup. destruct (g !! name) as [v|]; [|done].
  cbn [foldl]. f_equal. unfold Qc_max. by case_decide.
Qed.

Section Date_merge.

Variable py_repr : json → string.
Variable float_of_str : string → option Qc.

Lemma date_max_is_positive_running_max (games : list game_file) (name : pykey) :
  get_all_pitchers_max_speeds_for_date py_repr float_of_str games !! name =
    match per_game_maxima name
            (map (λ file, (extract_max_speeds_from_file py_repr float_of_str file).1) games)
    with
    | [] => None
    | l => if decide (0 < foldl Qc_max 0 l) then Some (foldl Qc_max 0 l) else None
    end.
Proof.
  unfold get_all_pitchers_max_speeds_for_date.
  destruct (merge_plain_loop
              (map (λ file, (extract_max_speeds_from_file py_repr float_of_str file).1) games)
              ∅ name) as [Hpos Hval]; [by rewrite lookup_empty|].
  rewrite lookup_empty in Hval. cbn [default from_option id] in Hval.
  destruct (foldl merge_max_plain ∅ _ !! name) as [m|] eqn:E; cbn in Hval.
  - specialize (Hpos m eq_refl). rewrite Hval in Hpos.
    destruct (per_game_maxima name _) as [|x l] eqn:Hl.
    + cbn in Hpos. by apply Qclt_not_eq in Hpos.
    + rewrite decide_True by done. by rewrite <-Hval.
  - destruct (per_game_maxima name _) as [|x l]; [done|].
    rewrite decide_False; [done|]. rewrite <-Hval. intros Hlt. by apply Qclt_not_eq in Hlt.
Qed.

End Date_merge.

(** ** Rounding of the mean

    Three fastballs at 85.4 and nothing else: the maximum is 85.4, the
    sum 256.20000000000005 and the mean 85.40000000000002, with either
    summation. *)
Lemma binary64_avg_exceeds_max :
  (Binary64.aggregated_avg Binary64.sum_plain [Binary64.three_fastballs]
     <=? Binary64.aggregated_max [Binary64.three_fastballs])%float = false ∧
  (Binary64.aggregated_avg Binary64.sum_compensated [Binary64.three_fastballs]
     <=? Binary64.aggregated_max [Binary64.three_fastballs])%float = false ∧
  Binary64.aggregated_max [Binary64.three_fastballs] = Binary64.mph_85_4 ∧
  Binary64.aggregated_avg Binary64.sum_plain [Binary64.three_fastballs]
    = 0x1.559999999999bp+6%float.
Proof. split_and!; by vm_compute. Qed.

(** * Further properties of the extractors *)

Lemma collect_Raise {A B : Type} (read : A → py (list B)) xs x e :
  x ∈ xs → read x = Raise e → ∃ e', collect read xs = Raise e'.
Proof.
  induction xs as [|x' xs IH]; intros Hin Hx; [by apply elem_of_nil in Hin|].
  cbn [collect]. apply elem_of_cons in Hin as [<-|Hin].
  - rewrite Hx, bind_Raise. by eexists.
  - destruct (read x') as [ys|e1]; rewrite ?bind_Ok, ?bind_Raise; [|by eexists].
    destruct (IH Hin Hx) as [e' ->]. rewrite bind_Raise. by eexists.
Qed.

Lemma record_max_nonneg rs (d : gmap pykey Qc) :
  (∀ k m, d !! k = Some m → 0 ≤ m) →
  ∀ k m, foldl record_max d rs !! k = Some m → 0 ≤ m.
Proof.
  revert d. induction rs as [|[k0 s] rs IH]; intros d Hd; [done|].
  cbn [foldl]. apply IH. intros k m. unfold record_max. cbn [fst snd].
  destruct (decide (k0 = k)) as [->|Hne].
  - rewrite update_max_lookup. intros [= <-].
    etrans; [|apply Qc_max_ge_l]. destruct (d !! k) eqn:E; [by eapply Hd|done].
  - rewrite update_max_lookup_ne by done. apply Hd.
Qed.

Lemma foldl_max_from b c l : c ≤ b → foldl Qc_max b l = Qc_max b (foldl Qc_max c l).
Proof.
  intros Hcb. apply (anti_symm (≤)).
  - apply foldl_max_lub; [apply Qc_max_ge_l|].
    intros x Hx. etrans; [by apply (foldl_max_ge_elem l c)|apply Qc_max_ge_r].
  - apply Qc_max_lub; [apply foldl_max_ge_init|].
    apply foldl_max_lub; [etrans; [exact Hcb|apply foldl_max_ge_init]|].
    intros x Hx. by apply foldl_max_ge_elem.
Qed.

Section Extractor_extras.

Variable py_repr : json → string.
Variable float_of_str : string → option Qc.

Lemma extract_max_read game_data :
  extract_max py_repr float_of_str game_data =
    o ← read_game_max py_repr float_of_str game_data;
    Ok (foldl record_max ∅ <$> (o : option (list (pykey * Qc)))).
Proof.
  unfold extract_max, read_game_max.
  step_bind; [|done].
  destruct (is_None _); [done|].
  repeat (step_bind; [|done]).
  rewrite (for_each_collect _ (read_play_max py_repr float_of_str _) record_max)
    by (intros; apply process_play_max_read).
  by step_bind.
Qed.

Lemma extract_max_only_recorded file :
  (extract_max_speeds_from_file py_repr float_of_str file).1 =
    foldl record_max ∅ (readings_of_file py_repr float_of_str file).
Proof.
  destruct file as [| | |game_data]; try done.
  unfold extract_max_speeds_from_file, readings_of_file. rewrite extract_max_read.
  by destruct (read_game_max _ _ game_data) as [[rs|]|e].
Qed.

Lemma extract_max_only_nonneg file name m :
  (extract_max_speeds_from_file py_repr float_of_str file).1 !! name = Some m → 0 ≤ m.
Proof.
  rewrite extract_max_only_recorded. apply record_max_nonneg.
  intros k m'. by rewrite lookup_empty.
Qed.

(** X1.  The maximum a file gives a pitcher is the greatest of 0.0 and
    the speeds of the pitcher's pitches read from the file: the pitcher
    has an entry exactly when a pitch was read, the entry is at least
    0.0 and at least every such speed, and it is 0.0 or one of them (so
    a pitcher whose speeds are all negative is given 0.0). *)
Theorem game_max_is_greatest_of_zero_and_speeds (file : game_file) (name : pykey) :
  ((extract_max_and_avg_fastball_speeds_from_file py_repr float_of_str file).1.1 !! name = None
   ↔ ∀ p, p ∈ pitches_of_file py_repr float_of_str file → pitch_pitcher p ≠ name) ∧
  (∀ m, (extract_max_and_avg_fastball_speeds_from_file py_repr float_of_str file).1.1 !! name
          = Some m →
        0 ≤ m ∧
        (∀ p, p ∈ pitches_of_file py_repr float_of_str file → pitch_pitcher p = name →
              pitch_speed p ≤ m) ∧
        (m = 0 ∨ ∃ p, p ∈ pitches_of_file py_repr float_of_str file ∧
                      pitch_pitcher p = name ∧ pitch_speed p = m)).
Proof.
  rewrite extract_max_lookup. split.
  - destruct (speeds_of name _) as [|s l] eqn:Hl.
    + split; [|done]. intros _ p Hp Hname.
      assert (pitch_speed p ∈ speeds_of name (pitches_of_file py_repr float_of_str file)) as Hin
        by (apply elem_of_speeds_of; eauto).
      rewrite Hl in Hin. by apply elem_of_nil in Hin.
    + split; [done|]. intros Hnone.
      assert (s ∈ speeds_of name (pitches_of_file py_repr float_of_str file)) as Hin
        by (rewrite Hl; left).
      apply elem_of_speeds_of in Hin as (p & Hp & Hname & _). by destruct (Hnone p Hp).
  - intros m Hm. destruct (speeds_of name _) as [|s l] eqn:Hl; [done|].
    assert (m = foldl Qc_max 0 (s :: l)) as -> by (by injection Hm).
    clear Hm. rewrite <-Hl. split_and!.
    + apply foldl_max_ge_init.
    + intros p Hp Hname. apply foldl_max_ge_elem, elem_of_speeds_of. eauto.
    + destruct (foldl_max_attained (speeds_of name (pitches_of_file py_repr float_of_str file)) 0)
        as [->|Hin]; [by left|right].
      apply elem_of_speeds_of in Hin as (p & Hp & Hname & Hs). eauto.
Qed.

(** X2.  The average a file gives a pitcher is the mean of the speeds
    of the pitcher's fastballs read from the file, in the order thrown;
    the pitcher has an entry exactly when one of the pitches read is a
    fastball of the pitcher. *)
Theorem game_avg_is_mean_of_fastballs (file : game_file) (name : pykey) :
  (extract_max_and_avg_fastball_speeds_from_file py_repr float_of_str file).1.2 !! name =
    mean_of (fastballs_of name (pitches_of_file py_repr float_of_str file)) ∧
  (is_Some ((extract_max_and_avg_fastball_speeds_from_file py_repr float_of_str file).1.2
              !! name)
   ↔ ∃ p, p ∈ pitches_of_file py_repr float_of_str file ∧
          pitch_pitcher p = name ∧ pitch_fastball p = true).
Proof.
  rewrite extract_avg_lookup. split; [done|]. unfold mean_of.
  destruct (fastballs_of name _) as [|s l] eqn:Hl.
  - rewrite bool_decide_eq_false_2 by (by intros []). split; [by intros [? [=]]|].
    intros (p & Hp & Hname & Hfast).
    assert (pitch_speed p ∈ fastballs_of name (pitches_of_file py_repr float_of_str file))
      as Hin by (apply elem_of_fastballs_of; eauto).
    rewrite Hl in Hin. by apply elem_of_nil in Hin.
  - rewrite bool_decide_eq_true_2 by done. split; [|by eexists].
    intros _.
    assert (s ∈ fastballs_of name (pitches_of_file py_repr float_of_str file)) as Hin
      by (rewrite Hl; left).
    apply elem_of_fastballs_of in Hin as (p & Hp & Hname & Hfast & _). eauto.
Qed.

(** X3.  Processing a play never lowers a recorded maximum, never
    removes a pitcher, and only appends to the fastball lists. *)
Theorem play_only_raises_maxima_and_extends_lists
    (player_names : gmap pykey json) (st st' : speeds) (play : json) :
  process_play py_repr float_of_str player_names st play = Ok st' →
  (∀ name m, max_speeds st !! name = Some m →
             ∃ m', max_speeds st' !! name = Some m' ∧ m ≤ m') ∧
  (∀ name l, fastball_speeds_dict st !! name = Some l →
             ∃ l', fastball_speeds_dict st' !! name = Some (l ++ l')).
Proof.
  intros (ps & _ & ->)%process_play_recorded. split.
  - intros name m Hm. rewrite record_all_max, Hm.
    destruct (speeds_of name ps) as [|s l]; [by exists m|].
    eexists. split; [done|]. apply (foldl_max_ge_init (s :: l)).
  - intros name l Hl. rewrite record_all_fast, Hl.
    destruct (fastballs_of name ps) as [|s l']; [|by eexists].
    exists []. by rewrite app_nil_r.
Qed.

End Extractor_extras.

Lemma game_max_is_greatest_of_zero_and_speeds_witness : 0 ≤ Qc_of_Z 99.
Proof.
  refine (proj1 (proj2 (game_max_is_greatest_of_zero_and_speeds no_repr no_float game_B
                          (KStr "X")) (Qc_of_Z 99) _)).
  by_computation.
Defined.

Lemma game_avg_is_mean_of_fastballs_witness :
  ∃ p, p ∈ pitches_of_file no_repr no_float game_B ∧
       pitch_pitcher p = KStr "X" ∧ pitch_fastball p = true.
Proof.
  refine (proj1 (proj2 (game_avg_is_mean_of_fastballs no_repr no_float game_B (KStr "X"))) _).
  by_computation.
Defined.

Lemma play_only_raises_maxima_and_extends_lists_witness :
  ∃ m', max_speeds
          (foldl record_pitch (Speeds {[KStr "Roster Name" := Qc_of_Z 90]} ∅)
             [Pitch (KStr "Roster Name") (Qc_of_Z 97) true])
          !! KStr "Roster Name" = Some m' ∧ Qc_of_Z 90 ≤ m'.
Proof.
  refine (proj1 (play_only_raises_maxima_and_extends_lists no_repr no_float
                   (<[KNum (Qc_of_Z 7) := JStr "Roster Name"]> ∅)
                   (Speeds {[KStr "Roster Name" := Qc_of_Z 90]} ∅) _ play_7 _)
                (KStr "Roster Name") (Qc_of_Z 90) _).
  - vm_compute. reflexivity.
  - by_computation.
Defined.

Section Extractor_extras_2.

Variable py_repr : json → string.
Variable float_of_str : string → option Qc.

(** X4.  Nothing read from a file is kept once a play raises: if the
    loop body raises on any play of the play list, the extractor
    returns two empty dictionaries and prints the catch-all line,
    whatever the other plays hold. *)
Theorem raising_play_empties_file
    (game_data all_plays_data players_data_raw : json) (player_names : gmap pykey json)
    (plays : list json) (play : json) (e : exn) :
  find_all_plays game_data = Ok all_plays_data →
  is_None all_plays_data = false →
  find_players game_data = Ok players_data_raw →
  build_player_names players_data_raw = Ok player_names →
  py_iter all_plays_data = Ok plays →
  play ∈ plays →
  process_play py_repr float_of_str player_names (Speeds ∅ ∅) play = Raise e →
  extract_max_and_avg_fastball_speeds_from_file py_repr float_of_str (Decoded game_data)
    = ((∅, ∅), [WarnUnexpected]).
Proof.
  intros Hall Hnone Hplayers Hroster Hiter Hin Hraise.
  rewrite process_play_read in Hraise.
  destruct (read_play py_repr float_of_str player_names play) as [ps|e0] eqn:Hread;
    rewrite ?bind_Ok, ?bind_Raise in Hraise; [done|].
  destruct (collect_Raise _ _ _ _ Hin Hread) as [e' Hcollect].
  cbn [extract_max_and_avg_fastball_speeds_from_file].
  rewrite extract_speeds_read. unfold read_game.
  rewrite Hall, bind_Ok, Hnone, Hplayers, bind_Ok, Hroster, bind_Ok, Hiter, bind_Ok.
  by rewrite Hcollect, !bind_Raise.
Qed.

Lemma read_event_within_max player_names pitcher_id name_from_matchup event ps rs p :
  read_event float_of_str player_names pitcher_id name_from_matchup event = Ok ps →
  read_event_max float_of_str player_names pitcher_id name_from_matchup event = Ok rs →
  p ∈ ps → (pitch_pitcher p, pitch_speed p) ∈ rs.
Proof.
  unfold read_event, read_event_max, has_speed_and_type.
  destruct (py_get event "pitchData" JNull) as [pitch_data|e]; rewrite ?bind_Ok, ?bind_Raise;
    [|done].
  destruct (py_get event "details" JNull) as [details|e]; rewrite ?bind_Ok, ?bind_Raise;
    [|done].
  destruct (has_start_speed pitch_data) as [[]|e]; rewrite ?bind_Ok, ?bind_Raise;
    [| by intros [= <-] _ ?%elem_of_nil | done].
  intros Hps Hrs.
  destruct (py_index pitch_data "startSpeed") as [start_speed|e] eqn:Hidx;
    rewrite ?bind_Ok, ?bind_Raise in Hrs; [|done].
  destruct (py_float float_of_str start_speed) as [speed|e] eqn:Hfl;
    rewrite ?bind_Ok, ?bind_Raise in Hrs; [|done].
  destruct (final_pitcher_name player_names pitcher_id name_from_matchup)
    as [final_name|e] eqn:Hfinal; rewrite ?bind_Ok, ?bind_Raise in Hrs; [|done].
  destruct (to_key final_name) as [name|e] eqn:Hname;
    rewrite ?bind_Ok, ?bind_Raise in Hrs; [|done].
  injection Hrs as <-.
  destruct (if py_truthy details then _ else _) as [[]|e];
    repeat (progress rewrite ?bind_Ok, ?bind_Raise, ?Hidx, ?Hfl in Hps);
    [| injection Hps as <-; by intros ?%elem_of_nil | done].
  destruct (py_index details "type") as [type|e];
    repeat (progress rewrite ?bind_Ok, ?bind_Raise in Hps); [|done].
  destruct (py_get type "code" JNull) as [pitch_code|e];
    repeat (progress rewrite ?bind_Ok, ?bind_Raise, ?Hfinal, ?Hname in Hps); [|done].
  destruct (is_fastball pitch_code) as [fast|e];
    repeat (progress rewrite ?bind_Ok, ?bind_Raise in Hps); [|done].
  injection Hps as <-. intros ->%list_elem_of_singleton. left.
Qed.

Lemma read_play_within_max player_names play ps rs p :
  read_play py_repr float_of_str player_names play = Ok ps →
  read_play_max py_repr float_of_str player_names play = Ok rs →
  p ∈ ps → (pitch_pitcher p, pitch_speed p) ∈ rs.
Proof.
  unfold read_play, read_play_max.
  destruct (py_in "playEvents" play) as [[]|e]; rewrite ?bind_Ok, ?bind_Raise;
    [| by intros [= <-] _ ?%elem_of_nil | done].
  destruct (play_pitcher py_repr play) as [[pitcher_id name_from_matchup]|e];
    rewrite ?bind_Ok, ?bind_Raise; [|done].
  destruct (play_events play) as [events|e]; rewrite ?bind_Ok, ?bind_Raise; [|done].
  intros Hps Hrs Hp.
  apply (collect_elem_of _ _ _ _ Hps) in Hp as (event & zs & Hevent & Hzs & Hp).
  destruct (collect_Ok_read _ _ _ _ Hrs Hevent) as (ws & Hws & Hsub).
  apply Hsub. by eapply read_event_within_max.
Qed.

Lemma pitches_within_readings file p :
  (extract_max_speeds_from_file py_repr float_of_str file).2 = [] →
  p ∈ pitches_of_file py_repr float_of_str file →
  (pitch_pitcher p, pitch_speed p) ∈ readings_of_file py_repr float_of_str file.
Proof.
  destruct file as [| | |game_data]; try done.
  unfold extract_max_speeds_from_file, pitches_of_file, readings_of_file.
  rewrite extract_max_read. unfold read_game, read_game_max.
  destruct (find_all_plays game_data) as [all_plays_data|e]; rewrite ?bind_Ok, ?bind_Raise;
    [|done].
  destruct (is_None all_plays_data); [done|].
  destruct (find_players game_data) as [players_data_raw|e]; rewrite ?bind_Ok, ?bind_Raise;
    [|done].
  destruct (build_player_names players_data_raw) as [player_names|e];
    rewrite ?bind_Ok, ?bind_Raise; [|done].
  destruct (py_iter all_plays_data) as [plays|e]; rewrite ?bind_Ok, ?bind_Raise; [|done].
  destruct (collect (read_play_max _ _ _) plays) as [rs|e] eqn:Hrs;
    rewrite ?bind_Ok, ?bind_Raise; [|done].
  destruct (collect (read_play _ _ _) plays) as [ps|e] eqn:Hps;
    rewrite ?bind_Ok, ?bind_Raise; [|by intros _ ?%elem_of_nil].
  intros _ Hp.
  apply (collect_elem_of _ _ _ _ Hps) in Hp as (play & zs & Hplay & Hzs & Hp).
  destruct (collect_Ok_read _ _ _ _ Hrs Hplay) as (ws & Hws & Hsub).
  apply Hsub. by eapply read_play_within_max.
Qed.

(** X5.  On a file that the max-only extractor finishes without a
    warning, every pitcher in the combined extractor's maximum map is
    in the max-only extractor's map with a maximum at least as large:
    the max-only script also counts the speeds of events that have no
    pitch type. *)
Theorem combined_max_at_most_max_only (file : game_file) (name : pykey) (m : Qc) :
  (extract_max_speeds_from_file py_repr float_of_str file).2 = [] →
  (extract_max_and_avg_fastball_speeds_from_file py_repr float_of_str file).1.1 !! name
    = Some m →
  ∃ m', (extract_max_speeds_from_file py_repr float_of_str file).1 !! name = Some m' ∧ m ≤ m'.
Proof.
  intros Hquiet. rewrite extract_max_lookup.
  destruct (speeds_of name _) as [|s l] eqn:Hl; [done|]. intros Hm.
  assert (m = foldl Qc_max 0 (s :: l)) as -> by (by injection Hm). clear Hm.
  rewrite <-Hl, extract_max_only_recorded.
  assert (∀ x, x ∈ speeds_of name (pitches_of_file py_repr float_of_str file) →
               ∃ m', foldl record_max ∅ (readings_of_file py_repr float_of_str file) !! name
                       = Some m' ∧ x ≤ m') as Hge.
  { intros x (p & Hp & <- & <-)%elem_of_speeds_of.
    apply record_max_lookup_ge. by apply pitches_within_readings. }
  destruct (Hge s) as (m' & Hm' & _); [rewrite Hl; left|].
  exists m'. split; [done|]. apply foldl_max_lub.
  - eapply (record_max_nonneg _ ∅); [|exact Hm']. intros k m0. by rewrite lookup_empty.
  - intros x Hx. destruct (Hge x Hx) as (m'' & Hm'' & Hle). congruence.
Qed.

End Extractor_extras_2.

Lemma raising_play_empties_file_witness :
  extract_max_and_avg_fastball_speeds_from_file no_repr no_float (Decoded game_D_data)
    = ((∅, ∅), [WarnUnexpected]).
Proof.
  refine (raising_play_empties_file no_repr no_float game_D_data _ (JObj []) ∅ _
            (play_of [("fullName", JStr "Y")] [null_speed_event]) TypeError
            _ _ _ _ _ _ _).
  - reflexivity.
  - reflexivity.
  - reflexivity.
  - reflexivity.
  - reflexivity.
  - right. left.
  - reflexivity.
Defined.

Lemma combined_max_at_most_max_only_witness :
  ∃ m', (extract_max_speeds_from_file no_repr no_float game_E).1 !! KStr "X" = Some m' ∧
        Qc_of_Z 95 ≤ m'.
Proof.
  refine (combined_max_at_most_max_only no_repr no_float game_E (KStr "X") (Qc_of_Z 95) _ _).
  - reflexivity.
  - by_computation.
Defined.

(** * [float] of an integer *)

(** An integer of at most 53 bits is converted exactly. *)
Lemma float_of_int_exact n : (Z.abs n < 2 ^ 53)%Z → float_of_int n = Some n.
Proof.
  intros Hn. unfold float_of_int.
  destruct (Z.leb_spec (Z.log2 (Z.abs n) + 1 - 53) 0) as [|Hgt]; [done|].
  exfalso. destruct (Z.eq_dec (Z.abs n) 0%Z) as [H0|H0].
  - rewrite H0 in Hgt. cbn in Hgt. lia.
  - assert (0 < Z.abs n)%Z as Hpos by lia. apply (Z.log2_lt_pow2 _ _ Hpos) in Hn. lia.
Qed.

(** Longer ones are rounded to the nearest binary64 value, ties to
    even, as the primitive conversion rounds them; from
    [2^1024 - 2^970] on the conversion overflows. *)
Lemma float_of_int_rounds :
  float_of_int (2 ^ 53 + 1) = Some (2 ^ 53)%Z ∧
  float_of_int (2 ^ 53 + 3) = Some (2 ^ 53 + 4)%Z ∧
  float_of_int (- (2 ^ 53 + 3)) = Some (- (2 ^ 53 + 4))%Z ∧
  float_of_int (2 ^ 62 + 2 ^ 9 + 1) = Some (2 ^ 62 + 2 ^ 10)%Z ∧
  PrimFloat.of_uint63 (Uint63.of_Z (2 ^ 53 + 1)) = PrimFloat.of_uint63 (Uint63.of_Z (2 ^ 53)) ∧
  PrimFloat.of_uint63 (Uint63.of_Z (2 ^ 53 + 3)) =
    PrimFloat.of_uint63 (Uint63.of_Z (2 ^ 53 + 4)) ∧
  PrimFloat.of_uint63 (Uint63.of_Z (2 ^ 62 + 2 ^ 9 + 1)) =
    PrimFloat.of_uint63 (Uint63.of_Z (2 ^ 62 + 2 ^ 10)) ∧
  float_of_int (2 ^ 1024 - 2 ^ 970 - 1) = Some (2 ^ 1024 - 2 ^ 971)%Z ∧
  float_of_int (2 ^ 1024 - 2 ^ 970) = None ∧
  float_of_int (10 ^ 400) = None.
Proof. split_and!; by vm_compute. Qed.

(** A speed of more than 53 bits is recorded rounded; on a speed too
    long for a float, [float] raises and the extractors drop the
    file. *)
Lemma long_integer_speeds (py_repr : json → string) (float_of_str : string → option Qc) :
  (extract_max_and_avg_fastball_speeds_from_file py_repr float_of_str
     (Decoded (game_of [play_of [("fullName", JStr "X")] [pitch_event (2 ^ 53 + 1) "FF"]]))).1.1
    !! KStr "X" = Some (Qc_of_Z (2 ^ 53)) ∧
  extract_max_and_avg_fastball_speeds_from_file py_repr float_of_str
    (Decoded (game_of [play_of [("fullName", JStr "X")] [pitch_event (10 ^ 400) "FF"]]))
    = ((∅, ∅), [WarnUnexpected]) ∧
  extract_max_speeds_from_file py_repr float_of_str
    (Decoded (game_of [play_of [("fullName", JStr "X")] [pitch_event (10 ^ 400) "FF"]]))
    = (∅, [WarnUnexpected]).
Proof. split_and!; first [by_computation | by vm_compute]. Qed.

(** * Whole game records

    The roster, the play list and the events of a play are located in
    the record by their field names; the lemmas below tie what the
    extractor's loops use to what is found there. *)







Section Whole_records.

Variable py_repr : json → string.
Variable float_of_str : string → option Qc.






End Whole_records.



(** * Further properties of the aggregators *)

Lemma merge_max_empty (all_max : gmap pykey Qc) : merge_max all_max ∅ = all_max.
Proof. unfold merge_max, for_items. by rewrite map_to_list_empty. Qed.

Lemma merge_avg_empty (all_avg : gmap pykey (list Qc)) : merge_avg all_avg ∅ = all_avg.
Proof. unfold merge_avg, for_items. by rewrite map_to_list_empty. Qed.

Lemma merge_max_plain_empty (all_max : gmap pykey Qc) : merge_max_plain all_max ∅ = all_max.
Proof. unfold merge_max_plain, for_items. by rewrite map_to_list_empty. Qed.

Lemma aggregate_step_empty acc : aggregate_step acc (∅, ∅) = acc.
Proof.
  unfold aggregate_step. cbn [fst snd]. rewrite merge_max_empty, merge_avg_empty.
  by destruct acc.
Qed.

Lemma merge_loop_max (game_maxes : list (gmap pykey Qc)) (acc : gmap pykey Qc) name :
  foldl merge_max acc game_maxes !! name =
    match per_game_maxima name game_maxes with
    | [] => acc !! name
    | l => Some (foldl Qc_max (default 0 (acc !! name)) l)
    end.
Proof.
  revert acc. induction game_maxes as [|g gs IH]; intros acc; [done|].
  cbn [foldl]. rewrite IH, per_game_maxima_cons, merge_max_lookup.
  destruct (g !! name) as [a|]; [|done].
  by destruct (per_game_maxima name gs).
Qed.

Lemma aggregate_results_max_app games1 games2 :
  (aggregate_results (games1 ++ games2)).1 =
    merge_max (aggregate_results games1).1 (aggregate_results games2).1.
Proof.
  apply map_eq. intros name.
  rewrite merge_max_lookup, !aggregate_results_max, fmap_app.
  unfold per_game_maxima at 1. rewrite omap_app.
  fold (per_game_maxima name games1.*1) (per_game_maxima name games2.*1).
  destruct (per_game_maxima name games2.*1) as [|y l2] eqn:H2.
  - by rewrite app_nil_r.
  - destruct (per_game_maxima name games1.*1) as [|x l1] eqn:H1.
    + cbn [app default from_option id]. f_equal.
      rewrite Qc_max_comm, Qc_max_l; [done|]. apply (foldl_max_ge_init (y :: l2)).
    + transitivity (Some (foldl Qc_max 0 ((x :: l1) ++ (y :: l2)))); [done|].
      rewrite foldl_app. cbn [default from_option id]. f_equal.
      apply (foldl_max_from _ 0 (y :: l2)), (foldl_max_ge_init (x :: l1)).
Qed.

Section Aggregator_extras.

Variable py_repr : json → string.
Variable float_of_str : string → option Qc.

(** X6.  A file for which the extractor returns two empty dictionaries
    (a missing or unreadable file, invalid JSON, a record without a
    play list, a file on which the extractor raised) leaves both
    aggregated dictionaries as they are without it. *)
Theorem empty_result_leaves_aggregate
    (files1 files2 : list game_file) (file : game_file) :
  (extract_max_and_avg_fastball_speeds_from_file py_repr float_of_str file).1 = (∅, ∅) →
  aggregate_max_and_avg_speeds_from_directory py_repr float_of_str (files1 ++ file :: files2) =
  aggregate_max_and_avg_speeds_from_directory py_repr float_of_str (files1 ++ files2).
Proof.
  intros Hempty. unfold aggregate_max_and_avg_speeds_from_directory, game_results,
    aggregate_results.
  rewrite !fmap_app, fmap_cons, Hempty, !foldl_app. cbn [foldl].
  by rewrite aggregate_step_empty.
Qed.

(** X7.  The max-only script's aggregate gives a pitcher the greatest
    of the pitcher's per-game maxima, has no entry exactly when no game
    has the pitcher, and does not depend on the order of the files. *)
Theorem max_only_aggregate_is_greatest (files : list game_file) (name : pykey) :
  (∀ m, aggregate_max_speeds_from_directory py_repr float_of_str files !! name = Some m →
        is_maximum m
          (per_game_maxima name
             (map (λ file, (extract_max_speeds_from_file py_repr float_of_str file).1) files))) ∧
  (aggregate_max_speeds_from_directory py_repr float_of_str files !! name = None ↔
   per_game_maxima name
     (map (λ file, (extract_max_speeds_from_file py_repr float_of_str file).1) files) = []) ∧
  (∀ files', files ≡ₚ files' →
             aggregate_max_speeds_from_directory py_repr float_of_str files' =
             aggregate_max_speeds_from_directory py_repr float_of_str files).
Proof.
  unfold aggregate_max_speeds_from_directory. split_and!.
  - intros m. rewrite merge_loop_max, lookup_empty.
    destruct (per_game_maxima name _) as [|x l] eqn:Hl; [done|]. intros Hm.
    assert (m = foldl Qc_max x l) as ->.
    { injection Hm as <-. cbn [foldl default from_option id].
      rewrite Qc_max_comm, Qc_max_l; [done|].
      assert (x ∈ per_game_maxima name
                (map (λ file, (extract_max_speeds_from_file py_repr float_of_str file).1)
                   files)) as Hx by (rewrite Hl; left).
      apply list_elem_of_omap in Hx as (g & Hg & Hx).
      apply list_elem_of_fmap in Hg as (file & -> & _).
      by eapply extract_max_only_nonneg. }
    apply foldl_max_is_maximum.
  - rewrite merge_loop_max, lookup_empty. by destruct (per_game_maxima name _).
  - intros files' Hp. apply map_eq. intros k. rewrite !merge_loop_max, !lookup_empty.
    assert (per_game_maxima k
              (map (λ file, (extract_max_speeds_from_file py_repr float_of_str file).1) files')
            ≡ₚ per_game_maxima k
                 (map (λ file, (extract_max_speeds_from_file py_repr float_of_str file).1)
                    files)) as Hm.
    { apply per_game_maxima_Permutation. by rewrite Hp. }
    destruct (per_game_maxima k (map _ files')) as [|x l],
      (per_game_maxima k (map _ files)) as [|x' l'].
    + done.
    + by apply Permutation_nil_cons in Hm.
    + symmetry in Hm. by apply Permutation_nil_cons in Hm.
    + f_equal. by apply foldl_max_Permutation.
Qed.

(** X8.  The merge over the games of one date keeps only positive
    maxima: an entry is positive and is the greatest of the pitcher's
    per-game maxima, and a pitcher has no entry exactly when none of
    the pitcher's per-game maxima is positive; the result does not
    depend on the order of the games. *)
Theorem date_merge_keeps_positive_maxima (games : list game_file) (name : pykey) :
  (∀ m, get_all_pitchers_max_speeds_for_date py_repr float_of_str games !! name = Some m →
        0 < m ∧
        is_maximum m
          (per_game_maxima name
             (map (λ file, (extract_max_speeds_from_file py_repr float_of_str file).1) games))) ∧
  (get_all_pitchers_max_speeds_for_date py_repr float_of_str games !! name = None ↔
   ∀ x, x ∈ per_game_maxima name
              (map (λ file, (extract_max_speeds_from_file py_repr float_of_str file).1) games) →
        x ≤ 0) ∧
  (∀ games', games ≡ₚ games' →
             get_all_pitchers_max_speeds_for_date py_repr float_of_str games' =
             get_all_pitchers_max_speeds_for_date py_repr float_of_str games).
Proof.
  split_and!.
  - intros m. rewrite date_max_is_positive_running_max.
    destruct (per_game_maxima name _) as [|x l] eqn:Hl; [done|]. cbv beta iota zeta.
    destruct (decide (0 < foldl Qc_max 0 (x :: l))) as [Hpos|Hpos]; [|done].
    intros Hm. assert (m = foldl Qc_max 0 (x :: l)) as -> by (by injection Hm).
    split; [done|]. split.
    + destruct (foldl_max_attained (x :: l) 0) as [H0|Hin]; [|done].
      rewrite H0 in Hpos. by apply Qclt_not_eq in Hpos.
    + intros y Hy. by apply foldl_max_ge_elem.
  - rewrite date_max_is_positive_running_max.
    destruct (per_game_maxima name _) as [|x l] eqn:Hl.
    + split; [|done]. by intros _ y ?%elem_of_nil.
    + cbv beta iota zeta. destruct (decide (0 < foldl Qc_max 0 (x :: l))) as [Hpos|Hpos].
      * split; [done|]. intros Hall. exfalso.
        destruct (foldl_max_attained (x :: l) 0) as [H0|Hin].
        -- rewrite H0 in Hpos. by apply Qclt_not_eq in Hpos.
        -- apply Hall in Hin. by apply Qcle_not_lt in Hin.
      * split; [|done]. intros _ y Hy. apply Qcnot_lt_le in Hpos.
        etrans; [|exact Hpos]. by apply foldl_max_ge_elem.
  - intros games' Hp. apply map_eq. intros k. rewrite !date_max_is_positive_running_max.
    assert (per_game_maxima k
              (map (λ file, (extract_max_speeds_from_file py_repr float_of_str file).1) games')
            ≡ₚ per_game_maxima k
                 (map (λ file, (extract_max_speeds_from_file py_repr float_of_str file).1)
                    games)) as Hm.
    { apply per_game_maxima_Permutation. by rewrite Hp. }
    destruct (per_game_maxima k (map _ games')) as [|x l],
      (per_game_maxima k (map _ games)) as [|x' l'].
    + done.
    + by apply Permutation_nil_cons in Hm.
    + symmetry in Hm. by apply Permutation_nil_cons in Hm.
    + cbv beta iota zeta. by rewrite (foldl_max_Permutation _ _ 0 Hm).
Qed.

(** X9.  Aggregated maxima can be computed in parts: the maximum map
    of two directories taken together is the merge of the maximum maps
    of each. *)
Theorem aggregated_max_of_parts (files1 files2 : list game_file) :
  (aggregate_max_and_avg_speeds_from_directory py_repr float_of_str (files1 ++ files2)).1 =
  merge_max (aggregate_max_and_avg_speeds_from_directory py_repr float_of_str files1).1
            (aggregate_max_and_avg_speeds_from_directory py_repr float_of_str files2).1.
Proof.
  unfold aggregate_max_and_avg_speeds_from_directory, game_results.
  rewrite fmap_app. apply aggregate_results_max_app.
Qed.

End Aggregator_extras.

Lemma empty_result_leaves_aggregate_witness :
  aggregate_max_and_avg_speeds_from_directory no_repr no_float ([game_A] ++ NotJson :: [game_B]) =
  aggregate_max_and_avg_speeds_from_directory no_repr no_float ([game_A] ++ [game_B]).
Proof.
  refine (empty_result_leaves_aggregate no_repr no_float [game_A] [game_B] NotJson _).
  reflexivity.
Defined.

Lemma max_only_aggregate_is_greatest_witness :
  aggregate_max_speeds_from_directory no_repr no_float [game_B; game_A] =
  aggregate_max_speeds_from_directory no_repr no_float [game_A; game_B].
Proof.
  refine (proj2 (proj2 (max_only_aggregate_is_greatest no_repr no_float [game_A; game_B]
                          (KStr "X"))) _ _).
  apply perm_swap.
Defined.

Lemma date_merge_keeps_positive_maxima_witness : 0 < Qc_of_Z 99.
Proof.
  refine (proj1 (proj1 (date_merge_keeps_positive_maxima no_repr no_float [game_A; game_B]
                          (KStr "X")) (Qc_of_Z 99) _)).
  by_computation.
Defined.

(** * The running maximum in both merges *)

Section Running_maximum.

Variable py_repr : json → string.
Variable float_of_str : string → option Qc.

Abbreviation aggregate := (aggregate_max_and_avg_speeds_from_directory py_repr float_of_str).
Abbreviation results := (game_results py_repr float_of_str).
Abbreviation for_date := (get_all_pitchers_max_speeds_for_date py_repr float_of_str).
Abbreviation max_only :=
  (map (λ file, (extract_max_speeds_from_file py_repr float_of_str file).1)).

Lemma date_merge_running_max files name :
  for_date files !! name =
    match running_max name (max_only files) with
    | Some m => if decide (0 < m) then Some m else None
    | None => None
    end.
Proof.
  rewrite date_max_is_positive_running_max, running_max_maxima.
  destruct (per_game_maxima name _) as [|x l] eqn:Hl; [done|].
  assert (0 ≤ x) as Hx.
  { assert (x ∈ per_game_maxima name (max_only files)) as Hin by (rewrite Hl; left).
    apply list_elem_of_omap in Hin as (g & Hg & Hin).
    apply list_elem_of_fmap in Hg as (file & -> & _).
    by eapply extract_max_only_nonneg. }
  cbn [foldl]. by rewrite (Qc_max_comm 0 x), (Qc_max_l x 0 Hx).
Qed.

Lemma date_merge_Permutation files files' :
  files ≡ₚ files' → for_date files' = for_date files.
Proof.
  intros Hp. apply map_eq. intros k. rewrite !date_merge_running_max, !running_max_maxima.
  assert (per_game_maxima k (max_only files') ≡ₚ per_game_maxima k (max_only files)) as Hm.
  { apply per_game_maxima_Permutation. by rewrite Hp. }
  destruct (per_game_maxima k (max_only files')) as [|x l] eqn:H1,
    (per_game_maxima k (max_only files)) as [|x' l'] eqn:H2.
  - done.
  - by apply Permutation_nil_cons in Hm.
  - symmetry in Hm. by apply Permutation_nil_cons in Hm.
  - assert (foldl Qc_max x l = foldl Qc_max x' l') as ->; [|done].
    apply (anti_symm (≤)).
    + destruct (foldl_max_is_maximum x l) as [Hin _].
      rewrite Hm in Hin. by apply (foldl_max_is_maximum x' l').
    + destruct (foldl_max_is_maximum x' l') as [Hin _].
      rewrite <-Hm in Hin. by apply (foldl_max_is_maximum x l).
Qed.

(** C5, amended.  Over the per-game maximum maps the extractors
    produce, the aggregated maximum of the directory scripts is the
    running maximum [max(overall_max.get(name, -inf), game_max[name])]
    folded over the games: the greatest of the pitcher's per-game
    maxima, absent exactly when no game has the pitcher.  The per-date
    merge of the season script gives the same value when it is
    positive, and no entry to a pitcher whose running maximum is 0.0.
    Neither result depends on the order in which the games are
    merged. *)
Theorem aggregated_max_is_running_max (files : list game_file) (name : pykey) :
  (aggregate files).1 !! name = running_max name (results files).*1 ∧
  (∀ m, (aggregate files).1 !! name = Some m →
        is_maximum m (per_game_maxima name (results files).*1)) ∧
  ((aggregate files).1 !! name = None ↔ per_game_maxima name (results files).*1 = []) ∧
  (∀ files', files ≡ₚ files' → (aggregate files').1 = (aggregate files).1) ∧
  for_date files !! name =
    match running_max name (max_only files) with
    | Some m => if decide (0 < m) then Some m else None
    | None => None
    end ∧
  (∀ files', files ≡ₚ files' → for_date files' = for_date files).
Proof.
  destruct (directory_max_is_running_max py_repr float_of_str files name)
    as (Hrun & Hmax & Hnone & Hperm).
  split_and!; [done..|apply date_merge_running_max|apply date_merge_Permutation].
Qed.

End Running_maximum.

Lemma aggregated_max_is_running_max_witness :
  is_maximum (Qc_of_Z 99)
    (per_game_maxima (KStr "X") (game_results no_repr no_float [game_A; game_B]).*1) ∧
  (aggregate_max_and_avg_speeds_from_directory no_repr no_float [game_B; game_A]).1 =
  (aggregate_max_and_avg_speeds_from_directory no_repr no_float [game_A; game_B]).1 ∧
  get_all_pitchers_max_speeds_for_date no_repr no_float [game_B; game_A] =
  get_all_pitchers_max_speeds_for_date no_repr no_float [game_A; game_B].
Proof.
  pose proof (aggregated_max_is_running_max no_repr no_float [game_A; game_B] (KStr "X"))
    as (_ & Hmax & _ & Hperm & _ & Hperm_date).
  split_and!.
  - apply Hmax. by_computation.
  - apply Hperm. apply perm_swap.
  - apply Hperm_date. apply perm_swap.
Defined.

(** A pitcher whose only pitch is measured at 0 mph: the running
    maximum over the game's map is 0.0, the per-date merge has no entry
    for the pitcher. *)
Lemma date_merge_drops_zero_maximum :
  running_max (KStr "X") [(extract_max_speeds_from_file no_repr no_float game_Z).1] = Some 0 ∧
  get_all_pitchers_max_speeds_for_date no_repr no_float [game_Z] !! KStr "X" = None ∧
  get_all_pitchers_max_speeds_for_date no_repr no_float [game_Z] !! KStr "X" ≠
    running_max (KStr "X") [(extract_max_speeds_from_file no_repr no_float game_Z).1].
Proof. split_and!; by_computation. Qed.

(** * Properties of the download script *)

Lemma append_inj_r (s t1 t2 : string) : s +:+ t1 = s +:+ t2 → t1 = t2.
Proof. induction s as [|c s IH]; [done|]. intros [= H]. by apply IH. Qed.

Lemma length_string_app (s t : string) :
  String.length (s +:+ t) = (String.length s + String.length t)%nat.
Proof.
  induction s as [|c s IH]; [done|].
  change (S (String.length (s +:+ t)) = S (String.length s + String.length t)).
  by rewrite IH.
Qed.

Lemma append_inj_l_json (t1 t2 : string) : t1 +:+ ".json" = t2 +:+ ".json" → t1 = t2.
Proof.
  revert t2. induction t1 as [|c t1 IH]; intros [|c2 t2] H.
  - done.
  - exfalso. apply (f_equal String.length) in H.
    rewrite (length_string_app (String c2 t2)) in H.
    change (5 = S (String.length t2 + 5))%nat in H. lia.
  - exfalso. apply (f_equal String.length) in H.
    rewrite (length_string_app (String c t1)) in H.
    change (S (String.length t1 + 5) = 5)%nat in H. lia.
  - injection H as -> H. f_equal. by apply IH.
Qed.

Lemma tally_add_zero t : tally_add t (Tally 0 0 0) = t.
Proof. destruct t. unfold tally_add. cbn. f_equal; lia. Qed.

Lemma tally_add_zero_l d : tally_add (Tally 0 0 0) d = d.
Proof. by destruct d. Qed.

Lemma rerun_of_add write d1 d1' d2 d2' :
  rerun_of write d1 d1' → rerun_of write d2 d2' →
  rerun_of write (tally_add d1 d2) (tally_add d1' d2').
Proof.
  intros (Hp1 & Hs1 & Hf1 & He1) (Hp2 & Hs2 & Hf2 & He2).
  repeat split; cbn; try lia.
  intros Hnever. by rewrite He1, He2.
Qed.

Lemma tally_add_assoc t d1 d2 : tally_add (tally_add t d1) d2 = tally_add t (tally_add d1 d2).
Proof. unfold tally_add. cbn. f_equal; lia. Qed.

Section Download_facts.

Variable py_repr : json → string.
Variable get : string → response.
Variable schedule_on : Z → response.
Variable write : string → json → write_result.

Abbreviation file_of := (game_file_name py_repr).
Abbreviation download_one := (download_game_data py_repr get write).
Abbreviation download_listed := (download_listed_game py_repr get write).
Abbreviation download_dated := (download_day py_repr get schedule_on write).
Abbreviation download_all := (download_all_games_for_year py_repr get schedule_on write).
Abbreviation leaves := (leaves_file py_repr get write).

Lemma file_of_inj_url pk pk' :
  file_of pk = file_of pk' → game_feed_url py_repr pk = game_feed_url py_repr pk'.
Proof.
  unfold game_file_name, game_feed_url. intros H.
  apply append_inj_r, append_inj_l_json in H. by rewrite H.
Qed.

Lemma leaves_file_name pk pk' : file_of pk = file_of pk' → leaves pk = leaves pk'.
Proof. intros H. unfold leaves_file. by rewrite (file_of_inj_url _ _ H), H. Qed.

Lemma made_by_script_leaves pk content :
  made_by_script py_repr get write (file_of pk) content → leaves pk = true.
Proof.
  intros (pk' & data & Hname & Hget & Hw). rewrite (leaves_file_name _ _ Hname).
  unfold leaves_file. rewrite Hget, <-Hname. by destruct Hw as [[_ ->]|[_ ->]].
Qed.

Lemma download_one_cases dir pk :
  (is_Some (dir !! file_of pk) ∧ download_one dir pk = (dir, true)) ∨
  (dir !! file_of pk = None ∧ leaves pk = false ∧ download_one dir pk = (dir, false)) ∨
  (dir !! file_of pk = None ∧ leaves pk = true ∧
   ∃ data, get (game_feed_url py_repr pk) = Body data ∧
     ((write (file_of pk) data = Written ∧
       download_one dir pk = (<[file_of pk := Dumped data]> dir, true)) ∨
      (write (file_of pk) data = Interrupted ∧
       download_one dir pk = (<[file_of pk := Partial]> dir, false)))).
Proof.
  unfold download_game_data, leaves_file.
  case_bool_decide as Hex; [by left|right].
  apply eq_None_not_Some in Hex.
  destruct (get (game_feed_url py_repr pk)) as [| |data]; [by left..|].
  destruct (write (file_of pk) data) eqn:Hw; [right|by left|right]; eauto 10.
Qed.

Lemma download_listed_kept dir0 st game st' :
  kept py_repr get write dir0 st → download_listed st game = Ok st' →
  kept py_repr get write dir0 st'.
Proof.
  intros (Hsub & Hproc & Hnew). unfold download_listed_game.
  destruct (py_get game "gamePk" JNull) as [pk|e]; rewrite ?bind_Ok, ?bind_Raise; [|done].
  destruct (py_truthy pk); [|by intros [= <-]].
  assert (∀ content data, get (game_feed_url py_repr pk) = Body data →
            st.1 !! file_of pk = None →
            (content = Dumped data ∧ write (file_of pk) data = Written ∨
             content = Partial ∧ write (file_of pk) data = Interrupted) →
            kept py_repr get write dir0 (<[file_of pk := content]> st.1, st.2)) as Hins.
  { intros content data Hget Hnone Hw. split_and!; cbn [fst snd].
    - etrans; [exact Hsub|]. by apply insert_subseteq.
    - done.
    - intros name content' Hl. destruct (decide (file_of pk = name)) as [<-|Hne].
      + rewrite lookup_insert_eq in Hl. injection Hl as <-. right. by exists pk, data.
      + rewrite lookup_insert_ne in Hl by done. by apply Hnew. }
  destruct (download_one_cases st.1 pk)
    as [[Hex ->]|[(Hnone & _ & ->)
                 |(Hnone & _ & data & Hget & [[Hw ->]|[Hw ->]])]].
  - rewrite bool_decide_eq_true_2 by done. by intros [= <-].
  - by intros [= <-].
  - rewrite bool_decide_eq_true_2 by (rewrite lookup_insert_eq; eauto).
    intros [= <-]. destruct (Hins (Dumped data) data) as (? & ? & ?); by eauto.
  - intros [= <-]. destruct (Hins Partial data) as (? & ? & ?); by eauto.
Qed.

Lemma download_dated_kept dir0 st day st' :
  kept py_repr get write dir0 st → download_dated st day = Ok st' →
  kept py_repr get write dir0 st'.
Proof.
  intros Hkept. unfold download_day.
  destruct (schedule_games _) as [games|e]; rewrite ?bind_Ok, ?bind_Raise; [|done].
  apply for_each_invariant; [|done]. intros. by eapply download_listed_kept.
Qed.

Lemma download_all_kept dir dir' t start_date end_date :
  download_all dir start_date end_date = Ok (dir', t) →
  kept py_repr get write dir (dir', t).
Proof.
  intros Hrun.
  eapply (for_each_invariant (kept py_repr get write dir)); [|split_and!|exact Hrun];
    cbn; try done.
  - intros. by eapply download_dated_kept.
  - eauto.
Qed.

(** X10.  When a download run completes, every file that was in the
    directory is still there with what it held, every other file is
    named after a game for which the endpoint delivered data and holds
    the dump of that data (or the rest of a dump that raised), and the
    count of newly downloaded games is 0: a game just saved is counted
    as skipped, because its file exists when the count is taken. *)
Theorem download_run_keeps_files_and_counts_none_new
    (dir dir' : gmap string file_content) (t : tally) (start_date end_date : Z) :
  download_all dir start_date end_date = Ok (dir', t) →
  (∀ name content, dir !! name = Some content → dir' !! name = Some content) ∧
  (∀ name content, dir' !! name = Some content →
     dir !! name = Some content ∨ made_by_script py_repr get write name content) ∧
  total_games_processed t = 0%nat.
Proof.
  intros (Hsub & Hproc & Hnew)%download_all_kept.
  split_and!; [|done..]. intros name content Hl.
  by eapply lookup_weaken.
Qed.

Lemma download_listed_mono games dirA tA dirA' tA' :
  for_each download_listed (dirA, tA) games = Ok (dirA', tA') → dirA ⊆ dirA'.
Proof.
  apply (for_each_invariant (λ st : gmap string file_content * tally, dirA ⊆ st.1)); [|done].
  intros st game st' Hsub. unfold download_listed_game.
  destruct (py_get game "gamePk" JNull) as [pk|e]; rewrite ?bind_Ok, ?bind_Raise; [|done].
  destruct (py_truthy pk); [|by intros [= <-]].
  destruct (download_one_cases st.1 pk)
    as [[Hex ->]|[(Hnone & _ & ->)
                 |(Hnone & _ & data & Hget & [[Hw ->]|[Hw ->]])]].
  - case_bool_decide; by intros [= <-].
  - by intros [= <-].
  - case_bool_decide; intros [= <-]; cbn [fst];
      (etrans; [exact Hsub|]); by apply insert_subseteq.
  - intros [= <-]; cbn [fst]. etrans; [exact Hsub|]. by apply insert_subseteq.
Qed.

Lemma download_dated_mono days dirA tA dirA' tA' :
  for_each download_dated (dirA, tA) days = Ok (dirA', tA') → dirA ⊆ dirA'.
Proof.
  apply (for_each_invariant (λ st : gmap string file_content * tally, dirA ⊆ st.1)); [|done].
  intros [dir1 t1] day [dir2 t2] Hsub. unfold download_day.
  destruct (schedule_games _) as [games|e]; rewrite ?bind_Ok, ?bind_Raise; [|done].
  intros Hday%download_listed_mono. cbn [fst] in *. by etrans.
Qed.

(** Attempting a game again, from a directory that holds the first
    run's files and nothing an attempt could not have left. *)
Lemma download_listed_step_again dirA tA game dirA1 tA1 dirB tB :
  download_listed (dirA, tA) game = Ok (dirA1, tA1) →
  dirA1 ⊆ dirB →
  (∀ pk, is_Some (dirB !! file_of pk) → is_Some (dirA !! file_of pk) ∨ leaves pk = true) →
  dirA ⊆ dirA1 ∧
  ∃ d d', rerun_of write d d' ∧ tA1 = tally_add tA d ∧
          download_listed (dirB, tB) game = Ok (dirB, tally_add tB d').
Proof.
  unfold download_listed_game. intros Hrun HsubB Hback.
  destruct (py_get game "gamePk" JNull) as [pk|e]; rewrite ?bind_Ok, ?bind_Raise in *; [|done].
  destruct (py_truthy pk).
  2: { injection Hrun as <- <-. split; [done|]. exists (Tally 0 0 0), (Tally 0 0 0).
       by rewrite !tally_add_zero. }
  cbn [fst snd] in *.
  assert (is_Some (dirB !! file_of pk) →
          download_one dirB pk = (dirB, true) ∧
          bool_decide (is_Some (dirB !! file_of pk)) = true) as Hskip.
  { intros HexB. unfold download_game_data. by rewrite !bool_decide_eq_true_2. }
  destruct (download_one_cases dirA pk)
    as [[Hex HA]|[(Hnone & Hleaves & HA)
                 |(Hnone & Hleaves & data & Hget & [[Hw HA]|[Hw HA]])]];
    rewrite HA in Hrun.
  - rewrite bool_decide_eq_true_2 in Hrun by done. injection Hrun as <- <-.
    split; [done|]. exists (Tally 0 1 0), (Tally 0 1 0).
    destruct Hskip as [-> ->].
    { destruct Hex as [x Hx]. exists x. by eapply lookup_weaken. }
    split_and!; [by repeat split| |f_equal; f_equal];
      unfold tally_add; cbn; f_equal; lia.
  - injection Hrun as <- <-. split; [done|]. exists (Tally 0 0 1), (Tally 0 0 1).
    assert (dirB !! file_of pk = None) as HnoneB.
    { apply eq_None_not_Some. intros HexB. destruct (Hback pk HexB) as [Hex|Hleaves'].
      - rewrite Hnone in Hex. by destruct Hex.
      - congruence. }
    destruct (download_one_cases dirB pk)
      as [[Hex _]|[(_ & _ & HB')|(_ & Hleaves' & _)]]; [|rewrite HB'|congruence].
    { rewrite HnoneB in Hex. by destruct Hex. }
    split_and!; [by repeat split| |f_equal; f_equal];
      unfold tally_add; cbn; f_equal; lia.
  - rewrite bool_decide_eq_true_2 in Hrun by (rewrite lookup_insert_eq; eauto).
    injection Hrun as <- <-. split; [by apply insert_subseteq|].
    exists (Tally 0 1 0), (Tally 0 1 0).
    destruct Hskip as [-> ->].
    { eexists. eapply lookup_weaken; [|exact HsubB]. apply lookup_insert_eq. }
    split_and!; [by repeat split| |f_equal; f_equal];
      unfold tally_add; cbn; f_equal; lia.
  - injection Hrun as <- <-. split; [by apply insert_subseteq|].
    exists (Tally 0 0 1), (Tally 0 1 0).
    destruct Hskip as [-> ->].
    { eexists. eapply lookup_weaken; [|exact HsubB]. apply lookup_insert_eq. }
    split_and!; [|unfold tally_add; cbn; f_equal; lia
                 |f_equal; f_equal; unfold tally_add; cbn; f_equal; lia].
    repeat split; cbn; try lia. intros Hnever. by destruct (Hnever _ _ Hw).
Qed.

Lemma download_listed_again games :
  ∀ dirA tA dirA' tA' dirB tB,
    for_each download_listed (dirA, tA) games = Ok (dirA', tA') →
    dirA' ⊆ dirB →
    (∀ pk, is_Some (dirB !! file_of pk) → is_Some (dirA !! file_of pk) ∨ leaves pk = true) →
    ∃ d d', rerun_of write d d' ∧ tA' = tally_add tA d ∧
            for_each download_listed (dirB, tB) games = Ok (dirB, tally_add tB d').
Proof.
  induction games as [|game games IH]; intros dirA tA dirA' tA' dirB tB Hrun HsubB Hback.
  { injection Hrun as <- <-. exists (Tally 0 0 0), (Tally 0 0 0).
    by rewrite !tally_add_zero. }
  cbn [for_each] in *.
  destruct (download_listed (dirA, tA) game) as [[dirA1 tA1]|e] eqn:Hstep;
    rewrite ?bind_Ok, ?bind_Raise in Hrun; [|done].
  pose proof (download_listed_mono _ _ _ _ _ Hrun) as Hmono1.
  destruct (download_listed_step_again _ _ _ _ _ dirB tB Hstep)
    as (Hmono0 & d1 & d1' & Hd1 & -> & HB1); [by etrans|done|].
  rewrite HB1, bind_Ok.
  destruct (IH _ _ _ _ dirB (tally_add tB d1') Hrun HsubB) as (d2 & d2' & Hd2 & -> & HB2).
  { intros pk HexB. destruct (Hback pk HexB) as [[x Hx]|Hleaves]; [left|by right].
    exists x. by eapply lookup_weaken. }
  exists (tally_add d1 d2), (tally_add d1' d2').
  rewrite HB2, !tally_add_assoc. split_and!; [|done..]. by apply rerun_of_add.
Qed.

Lemma download_dated_again days :
  ∀ dirA tA dirA' tA' dirB tB,
    for_each download_dated (dirA, tA) days = Ok (dirA', tA') →
    dirA' ⊆ dirB →
    (∀ pk, is_Some (dirB !! file_of pk) → is_Some (dirA !! file_of pk) ∨ leaves pk = true) →
    ∃ d d', rerun_of write d d' ∧ tA' = tally_add tA d ∧
            for_each download_dated (dirB, tB) days = Ok (dirB, tally_add tB d').
Proof.
  induction days as [|day days IH]; intros dirA tA dirA' tA' dirB tB Hrun HsubB Hback.
  { injection Hrun as <- <-. exists (Tally 0 0 0), (Tally 0 0 0).
    by rewrite !tally_add_zero. }
  cbn [for_each] in *.
  destruct (download_dated (dirA, tA) day) as [[dirA1 tA1]|e] eqn:Hday;
    rewrite ?bind_Ok, ?bind_Raise in Hrun; [|done].
  pose proof (download_dated_mono _ _ _ _ _ Hrun) as Hmono1.
  assert (dirA ⊆ dirA1 ∧
          ∃ d1 d1', rerun_of write d1 d1' ∧ tA1 = tally_add tA d1 ∧
                    download_dated (dirB, tB) day = Ok (dirB, tally_add tB d1'))
    as (Hmono0 & d1 & d1' & Hd1 & -> & HB1).
  { unfold download_day in Hday |- *.
    destruct (schedule_games _) as [games|e]; rewrite ?bind_Ok, ?bind_Raise in *; [|done].
    split; [by eapply download_listed_mono|].
    eapply download_listed_again; [exact Hday|by etrans|done]. }
  rewrite HB1, bind_Ok.
  destruct (IH _ _ _ _ dirB (tally_add tB d1') Hrun HsubB) as (d2 & d2' & Hd2 & -> & HB2).
  { intros pk HexB. destruct (Hback pk HexB) as [[x Hx]|Hleaves]; [left|by right].
    exists x. by eapply lookup_weaken. }
  exists (tally_add d1 d2), (tally_add d1' d2').
  rewrite HB2, !tally_add_assoc. split_and!; [|done..]. by apply rerun_of_add.
Qed.

(** X11.  A second run over the same dates, with the network and the
    file system answering as before, completes and leaves the
    directory as the first run left it.  It attempts as many games,
    counts none as newly downloaded and no more as failed; its three
    counts are those of the first run when no dump is ever
    interrupted (a file cut short by a failed dump counts as failed in
    the first run and as already existing in the second: it is never
    fetched again). *)
Theorem download_run_again_changes_nothing
    (dir dir' : gmap string file_content) (t : tally) (start_date end_date : Z) :
  download_all dir start_date end_date = Ok (dir', t) →
  ∃ t', download_all dir' start_date end_date = Ok (dir', t') ∧ rerun_of write t t'.
Proof.
  intros Hrun.
  destruct (download_all_kept _ _ _ _ _ Hrun) as (Hsub & _ & Hnew).
  unfold download_all_games_for_year in *.
  destruct (download_dated_again _ _ _ _ _ dir' (Tally 0 0 0) Hrun)
    as (d & d' & Hd & -> & HB); [done| |].
  - intros pk [content Hcontent].
    destruct (Hnew _ _ Hcontent) as [Hold|Hmade]; [left; eauto|right].
    by eapply made_by_script_leaves.
  - exists (tally_add (Tally 0 0 0) d'). split; [exact HB|]. by rewrite !tally_add_zero_l.
Qed.

End Download_facts.

Lemma download_run_keeps_files_and_counts_none_new_witness :
  download_all_games_for_year no_repr endpoint_1 schedule_1_2 always_written ∅ 0 0 =
    Ok ({[ "game_1.json" := Dumped (game_of [play_of [("fullName", JStr "X")]
                                               [pitch_event 95 "FF"]]) ]}, Tally 0 1 1) ∧
  total_games_processed (Tally 0 1 1) = 0%nat.
Proof.
  assert (download_all_games_for_year no_repr endpoint_1 schedule_1_2 always_written ∅ 0 0 =
            Ok ({[ "game_1.json" := Dumped (game_of [play_of [("fullName", JStr "X")]
                                                       [pitch_event 95 "FF"]]) ]},
                Tally 0 1 1)) as Hrun by (vm_compute; reflexivity).
  split; [exact Hrun|].
  exact (proj2 (proj2 (download_run_keeps_files_and_counts_none_new
                         no_repr endpoint_1 schedule_1_2 always_written _ _ _ _ _ Hrun))).
Defined.

Lemma download_run_again_changes_nothing_witness :
  ∃ t', download_all_games_for_year no_repr endpoint_1 schedule_1_2 always_written
          {[ "game_1.json" := Dumped (game_of [play_of [("fullName", JStr "X")]
                                                 [pitch_event 95 "FF"]]) ]} 0 0 =
          Ok ({[ "game_1.json" := Dumped (game_of [play_of [("fullName", JStr "X")]
                                                     [pitch_event 95 "FF"]]) ]}, t') ∧
        rerun_of always_written (Tally 0 1 1) t'.
Proof.
  refine (download_run_again_changes_nothing
            no_repr endpoint_1 schedule_1_2 always_written ∅ _ _ 0 0 _).
  vm_compute. reflexivity.
Defined.

(** * Properties of the schedule walks *)

Lemma for_each_Raise {A S : Type} (body : S → A → py S) xs x :
  x ∈ xs → (∀ st, ∃ e, body st x = Raise e) → ∀ st, ∃ e, for_each body st xs = Raise e.
Proof.
  induction xs as [|x' xs IH]; intros Hin Hx st; [by apply elem_of_nil in Hin|].
  cbn [for_each]. apply elem_of_cons in Hin as [<-|Hin].
  - destruct (Hx st) as [e ->]. rewrite bind_Raise. by eexists.
  - destruct (body st x') as [st1|e1]; rewrite ?bind_Ok, ?bind_Raise; [|by eexists].
    by apply IH.
Qed.

Lemma elem_of_date_range day start_date end_date :
  day ∈ date_range start_date end_date ↔ (start_date ≤ day ≤ end_date)%Z.
Proof. unfold date_range. rewrite elem_of_seqZ. lia. Qed.

Lemma foldl_map {A B C : Type} (f : A → B → A) (g : C → B) (a : A) (l : list C) :
  foldl f a (map g l) = foldl (λ a c, f a (g c)) a l.
Proof. revert a. induction l as [|c l IH]; intros a; [done|]. apply IH. Qed.

Lemma collect_at_most_one {A B : Type} (read : A → py (list B)) xs ys :
  (∀ x zs, read x = Ok zs → (length zs ≤ 1)%nat) →
  collect read xs = Ok ys → (length ys ≤ length xs)%nat.
Proof.
  intros Hread. revert ys. induction xs as [|x xs IH]; intros ys Hys.
  { by injection Hys as <-. }
  cbn [collect] in Hys.
  destruct (read x) as [zs|e] eqn:Hx; rewrite ?bind_Ok, ?bind_Raise in Hys; [|done].
  destruct (collect read xs) as [ys'|e]; rewrite ?bind_Ok, ?bind_Raise in Hys; [|done].
  injection Hys as <-. rewrite length_app. cbn [length].
  specialize (Hread _ _ Hx). specialize (IH _ eq_refl). lia.
Qed.

(** The plain-dictionary merge from a dictionary of positive maxima. *)
Lemma plain_fold_lookup gs (acc : gmap pykey Qc) name :
  (∀ m, acc !! name = Some m → 0 < m) →
  foldl merge_max_plain acc gs !! name =
    if decide (0 < foldl Qc_max (default 0 (acc !! name)) (per_game_maxima name gs))
    then Some (foldl Qc_max (default 0 (acc !! name)) (per_game_maxima name gs))
    else None.
Proof.
  intros Hacc. destruct (merge_plain_loop gs acc name Hacc) as [Hpos Hval].
  rewrite <-Hval. destruct (foldl merge_max_plain acc gs !! name) as [m|] eqn:E.
  - cbn [default from_option id]. by rewrite decide_True by (by apply Hpos).
  - cbn [default from_option id]. rewrite decide_False; [done|].
    intros H. by apply Qclt_not_eq in H.
Qed.

(** Merging a date's dictionary into the season's is merging the
    date's games into it one by one. *)
Lemma merge_max_plain_fold gs (acc : gmap pykey Qc) :
  (∀ name m, acc !! name = Some m → 0 < m) →
  merge_max acc (foldl merge_max_plain ∅ gs) = foldl merge_max_plain acc gs.
Proof.
  intros Hacc. apply map_eq. intros name.
  rewrite merge_max_lookup.
  rewrite (plain_fold_lookup gs ∅ name) by (intros m; by rewrite lookup_empty).
  rewrite (plain_fold_lookup gs acc name) by apply Hacc.
  rewrite lookup_empty. cbn [default from_option id].
  assert (0 ≤ default 0 (acc !! name)) as Ha0.
  { destruct (acc !! name) as [m|] eqn:E; cbn [default from_option id]; [|done].
    apply Qclt_le_weak. by eapply Hacc. }
  rewrite (foldl_max_from (default 0 (acc !! name)) 0 (per_game_maxima name gs) Ha0).
  destruct (decide (0 < foldl Qc_max 0 (per_game_maxima name gs))) as [Hw|Hw].
  - rewrite decide_True; [done|]. eapply Qclt_le_trans; [exact Hw|apply Qc_max_ge_r].
  - assert (foldl Qc_max 0 (per_game_maxima name gs) = 0) as ->.
    { apply (anti_symm (≤)); [by apply Qcnot_lt_le|apply foldl_max_ge_init]. }
    rewrite Qc_max_l by done.
    destruct (acc !! name) as [m|] eqn:E; cbn [default from_option id].
    + by rewrite decide_True by (by eapply Hacc).
    + rewrite decide_False; [done|]. intros H. by apply Qclt_not_eq in H.
Qed.

Section Season_facts.

Variable py_repr : json → string.
Variable float_of_str : string → option Qc.
Variable get : string → response.
Variable schedule_on : Z → response.
Variable schedule_for_count : Z → response.

Abbreviation game_max := (λ file, (extract_max_speeds_from_file py_repr float_of_str file).1).
Abbreviation linked := (linked_game py_repr get).
Abbreviation listed_on := (games_listed_on schedule_on).
Abbreviation read_on := (games_read_on py_repr get schedule_on).
Abbreviation for_date := (get_all_pitchers_max_speeds_for_date py_repr float_of_str).
Abbreviation for_year :=
  (get_all_pitchers_max_speeds_for_year py_repr float_of_str get schedule_on schedule_for_count).
Abbreviation day_step :=
  (merge_day py_repr float_of_str get schedule_on schedule_for_count).

Lemma merge_game_read acc game :
  merge_game py_repr float_of_str get acc game =
    files ← linked game; Ok (foldl (λ acc file, merge_max_plain acc (game_max file)) acc files).
Proof.
  unfold merge_game, linked_game, get_max_speeds_from_game_api.
  destruct game as [| | | | | |fields]; try done.
  cbn [py_get]. rewrite !bind_Ok. by destruct (py_truthy _).
Qed.

Lemma max_speeds_for_schedule_read day :
  max_speeds_for_schedule py_repr float_of_str get (schedule_on day) =
    files ← read_on day; Ok (for_date files).
Proof.
  unfold max_speeds_for_schedule, games_read_on, games_listed_on,
    get_all_pitchers_max_speeds_for_date.
  destruct (schedule_games _) as [games|e]; rewrite ?bind_Ok, ?bind_Raise; [|done].
  rewrite (for_each_collect _ linked (λ acc file, merge_max_plain acc (game_max file)))
    by apply merge_game_read.
  destruct (collect linked games) as [files|e]; rewrite ?bind_Ok, ?bind_Raise; [|done].
  by rewrite foldl_map.
Qed.

Lemma linked_at_most_one game files : linked game = Ok files → (length files ≤ 1)%nat.
Proof.
  unfold linked_game.
  destruct (py_get game "link" JNull) as [link|e]; rewrite ?bind_Ok, ?bind_Raise; [|done].
  intros [= <-]. destruct (py_truthy link); cbn; lia.
Qed.

Lemma day_step_read acc n day acc1 n1 :
  (∀ name v, acc !! name = Some v → 0 < v) →
  day_step (acc, n) day = Ok (acc1, n1) →
  ∃ files counted,
    read_on day = Ok files ∧
    games_listed_on schedule_for_count day = Ok counted ∧
    acc1 = foldl merge_max_plain acc (map game_max files) ∧
    n1 = (n + length counted)%nat ∧
    (∀ name v, acc1 !! name = Some v → 0 < v) ∧
    ((∀ day, schedule_for_count day = schedule_on day) →
     listed_on day = Ok counted ∧ (length files ≤ length counted)%nat).
Proof.
  intros Hacc. unfold merge_day. rewrite max_speeds_for_schedule_read.
  destruct (read_on day) as [files|e] eqn:Hread; rewrite ?bind_Ok, ?bind_Raise; [|done].
  fold (games_listed_on schedule_for_count day).
  destruct (games_listed_on schedule_for_count day) as [counted|e] eqn:Hcount;
    rewrite ?bind_Ok, ?bind_Raise; [|done].
  cbn [fst snd]. intros [= <- <-]. exists files, counted.
  unfold get_all_pitchers_max_speeds_for_date. rewrite merge_max_plain_fold by done.
  split_and!; try done.
  - intros name v. by apply merge_plain_loop, Hacc.
  - intros Hsame. unfold games_listed_on in Hcount. rewrite Hsame in Hcount.
    split; [done|]. unfold games_read_on, games_listed_on in Hread.
    rewrite Hcount, bind_Ok in Hread.
    eapply collect_at_most_one; [|exact Hread]. apply linked_at_most_one.
Qed.

Lemma year_loop days :
  ∀ acc n m n',
    (∀ name v, acc !! name = Some v → 0 < v) →
    for_each day_step (acc, n) days = Ok (m, n') →
    ∃ files,
      collect read_on days = Ok files ∧
      m = foldl merge_max_plain acc (map game_max files) ∧
      ((∀ day, schedule_for_count day = schedule_on day) →
       ∃ games, collect listed_on days = Ok games ∧
                n' = (n + length games)%nat ∧ (length files ≤ length games)%nat).
Proof.
  induction days as [|day days IH]; intros acc n m n' Hacc Hrun.
  { injection Hrun as <- <-. exists []. split_and!; [done..|].
    intros _. exists []. cbn. split_and!; [done|lia|lia]. }
  cbn [for_each collect] in *.
  destruct (day_step (acc, n) day) as [[acc1 n1]|e] eqn:Hday;
    rewrite ?bind_Ok, ?bind_Raise in Hrun; [|done].
  destruct (day_step_read _ _ _ _ _ Hacc Hday)
    as (files_d & counted & Hread & _ & -> & -> & Hacc1 & Hsame_d).
  destruct (IH _ _ _ _ Hacc1 Hrun) as (files & Hfiles & -> & Hsame).
  exists (files_d ++ files). rewrite Hread, bind_Ok, Hfiles, bind_Ok.
  split_and!; [done|by rewrite map_app, foldl_app|].
  intros Heq. destruct (Hsame_d Heq) as [Hlisted Hle_d].
  destruct (Hsame Heq) as (games & Hgames & -> & Hle).
  exists (counted ++ games). rewrite Hlisted, bind_Ok, Hgames, bind_Ok.
  rewrite !length_app. split_and!; [done|lia|lia].
Qed.

(** X12.  When the season run completes, its dictionary is the one
    the date merge gives on all the games read in the range taken
    together: merging day by day into the season's dictionary
    composes with the merge inside each date. *)
Theorem year_is_date_merge_of_all_games
    (start_date end_date : Z) (m : gmap pykey Qc) (n : nat) :
  for_year start_date end_date = Ok (m, n) →
  ∃ files, games_read py_repr get schedule_on start_date end_date = Ok files ∧
           m = for_date files.
Proof.
  intros Hrun.
  assert (∀ name v, (∅ : gmap pykey Qc) !! name = Some v → 0 < v) as Hempty
    by (intros name v; by rewrite lookup_empty).
  destruct (year_loop _ _ _ _ _ Hempty Hrun) as (files & Hfiles & -> & _).
  by exists files.
Qed.

(** X13.  When the two schedule requests of a date are answered alike,
    the total the season run prints as processed is the number of
    games the schedules list, with or without a link; the games
    actually read are at most as many. *)
Theorem year_count_is_games_listed
    (start_date end_date : Z) (m : gmap pykey Qc) (n : nat) :
  (∀ day, schedule_for_count day = schedule_on day) →
  for_year start_date end_date = Ok (m, n) →
  ∃ games files,
    games_listed schedule_on start_date end_date = Ok games ∧
    games_read py_repr get schedule_on start_date end_date = Ok files ∧
    n = length games ∧ (length files ≤ length games)%nat.
Proof.
  intros Hsame Hrun.
  assert (∀ name v, (∅ : gmap pykey Qc) !! name = Some v → 0 < v) as Hempty
    by (intros name v; by rewrite lookup_empty).
  destruct (year_loop _ _ _ _ _ Hempty Hrun) as (files & Hfiles & _ & Hcount).
  destruct (Hcount Hsame) as (games & Hgames & -> & Hle).
  by exists games, files.
Qed.

(** X14.  No exception of the schedule walk is caught: when walking
    the schedule of one date in the range raises (as it does when the
    answer is JSON but not an object), the season run raises and
    returns no dictionary. *)
Theorem malformed_schedule_aborts_season
    (start_date end_date day : Z) (e : exn) :
  (start_date ≤ day ≤ end_date)%Z →
  listed_on day = Raise e →
  ∃ e', for_year start_date end_date = Raise e'.
Proof.
  intros Hday Hraise. unfold get_all_pitchers_max_speeds_for_year.
  apply (for_each_Raise _ _ day); [by apply elem_of_date_range|].
  intros st. unfold merge_day, max_speeds_for_schedule.
  unfold games_listed_on in Hraise. rewrite Hraise, !bind_Raise. by eexists.
Qed.

End Season_facts.

Lemma year_is_date_merge_of_all_games_witness :
  ∃ files, games_read no_repr endpoint_1 schedule_1_2 0 1 = Ok files ∧
           {[ KStr "X" := Qc_of_Z 95 ]} =
           get_all_pitchers_max_speeds_for_date no_repr no_float files.
Proof.
  refine (year_is_date_merge_of_all_games no_repr no_float endpoint_1 schedule_1_2 schedule_1_2
            0 1 _ 4 _).
  vm_compute. reflexivity.
Defined.

Lemma year_count_is_games_listed_witness :
  ∃ games files,
    games_listed schedule_1_2 0 1 = Ok games ∧
    games_read no_repr endpoint_1 schedule_1_2 0 1 = Ok files ∧
    4%nat = length games ∧ (length files ≤ length games)%nat.
Proof.
  refine (year_count_is_games_listed no_repr no_float endpoint_1 schedule_1_2 schedule_1_2
            0 1 {[ KStr "X" := Qc_of_Z 95 ]} 4 _ _).
  - reflexivity.
  - vm_compute. reflexivity.
Defined.

Lemma malformed_schedule_aborts_season_witness :
  ∃ e', get_all_pitchers_max_speeds_for_year no_repr no_float endpoint_1
          schedule_not_object schedule_not_object 0 1 = Raise e'.
Proof.
  refine (malformed_schedule_aborts_season no_repr no_float endpoint_1
            schedule_not_object schedule_not_object 0 1 1 AttributeError _ _).
  - lia.
  - reflexivity.
Defined.

Section Download_abort.

Variable py_repr : json → string.
Variable get : string → response.
Variable schedule_on : Z → response.
Variable write : string → json → write_result.

(** X15.  The download run catches no exception of the schedule walk
    either: a date in the range on whose schedule the walk raises makes
    the run raise, so the run prints no totals. *)
Theorem malformed_schedule_aborts_download
    (dir : gmap string file_content) (start_date end_date day : Z) (e : exn) :
  (start_date ≤ day ≤ end_date)%Z →
  games_listed_on schedule_on day = Raise e →
  ∃ e', download_all_games_for_year py_repr get schedule_on write dir start_date end_date
        = Raise e'.
Proof.
  intros Hday Hraise. unfold download_all_games_for_year.
  apply (for_each_Raise _ _ day); [by apply elem_of_date_range|].
  intros st. unfold download_day.
  unfold games_listed_on in Hraise. rewrite Hraise, !bind_Raise. by eexists.
Qed.

End Download_abort.

Lemma malformed_schedule_aborts_download_witness :
  ∃ e', download_all_games_for_year no_repr endpoint_1 schedule_not_object always_written
          ∅ 0 1 = Raise e'.
Proof.
  refine (malformed_schedule_aborts_download no_repr endpoint_1 schedule_not_object
            always_written ∅ 0 1 0 AttributeError _ _).
  - lia.
  - reflexivity.
Defined.

(** * The guard of the combined script *)

Section Main_guard.

Variable py_repr : json → string.
Variable float_of_str : string → option Qc.

Lemma aggregated_max_some_pitch files name m :
  (aggregate_max_and_avg_speeds_from_directory py_repr float_of_str files).1 !! name = Some m →
  ∃ file, file ∈ files ∧ pitches_of_file py_repr float_of_str file ≠ [].
Proof.
  unfold aggregate_max_and_avg_speeds_from_directory. rewrite aggregate_results_max.
  destruct (per_game_maxima name _) as [|x l] eqn:Hl; [done|]. intros _.
  assert (x ∈ per_game_maxima name (game_results py_repr float_of_str files).*1) as Hx
    by (rewrite Hl; left).
  apply list_elem_of_omap in Hx as (g & Hg & Hx).
  apply list_elem_of_fmap in Hg as (r & -> & Hr).
  apply elem_of_game_results in Hr as (file & Hfile & ->).
  exists file. split; [done|]. intros Hnone.
  by rewrite extract_max_lookup, Hnone in Hx.
Qed.

(** X16.  The combined script saves its output exactly when a pitch
    was read from at least one file: with no file, or only files that
    are missing, invalid, without a play list or abandoned on an
    exception, nothing is written. *)
Theorem output_saved_iff_some_pitch_read (files : list game_file) :
  main_saves py_repr float_of_str files = true ↔
  ∃ file, file ∈ files ∧ pitches_of_file py_repr float_of_str file ≠ [].
Proof.
  unfold main_saves.
  destruct (aggregate_max_and_avg_speeds_from_directory py_repr float_of_str files)
    as [all_max all_avg] eqn:Hagg.
  assert (all_max = (aggregate_max_and_avg_speeds_from_directory py_repr float_of_str files).1)
    as Hmax by (by rewrite Hagg).
  assert (all_avg = (aggregate_max_and_avg_speeds_from_directory py_repr float_of_str files).2)
    as Havg by (by rewrite Hagg).
  clear Hagg. split.
  - intros [Hne|Hne]%orb_true_iff; apply bool_decide_eq_true_1 in Hne.
    + apply map_choose in Hne as (name & m & Hm). rewrite Hmax in Hm.
      by eapply aggregated_max_some_pitch.
    + apply map_choose in Hne as (name & a & Ha). rewrite Havg in Ha.
      apply aggregate_results_avg_le_max in Ha as (m & Hm & _).
      * by eapply aggregated_max_some_pitch.
      * intros g x (file & _ & ->)%elem_of_game_results. apply extract_avg_le_max.
  - intros (file & Hfile & Hpitches).
    apply orb_true_iff. left. apply bool_decide_eq_true_2.
    destruct (pitches_of_file py_repr float_of_str file) as [|p ps] eqn:Hps; [done|].
    assert (is_Some (all_max !! pitch_pitcher p)) as [m Hm]; [|by intros ->].
    rewrite Hmax. unfold aggregate_max_and_avg_speeds_from_directory.
    rewrite aggregate_results_max.
    assert (is_Some ((extract_max_and_avg_fastball_speeds_from_file py_repr float_of_str
                        file).1.1 !! pitch_pitcher p)) as [v Hv].
    { rewrite extract_max_lookup.
      assert (pitch_speed p ∈ speeds_of (pitch_pitcher p)
                (pitches_of_file py_repr float_of_str file)) as Hin.
      { apply elem_of_speeds_of. exists p. rewrite Hps. split; [left|done]. }
      destruct (speeds_of _ _); [by apply elem_of_nil in Hin|by eexists]. }
    assert (v ∈ per_game_maxima (pitch_pitcher p)
                  (game_results py_repr float_of_str files).*1) as Hin.
    { apply list_elem_of_omap. eexists. split; [|exact Hv].
      apply list_elem_of_fmap. eexists. split; [done|].
      apply elem_of_game_results. eauto. }
    destruct (per_game_maxima _ _); [by apply elem_of_nil in Hin|by eexists].
Qed.

End Main_guard.
